(** * nhk-weather-parser: a shallow embedding of the report pipeline

    The development follows the layout of the repository:

    - [PyStr]    Python [str] values as sequences of Unicode code points,
                 with the few string operations the services use
                 ([in], [find], [rfind], slicing, [strip], the Cyrillic
                 regular expression [[А-ЯЁа-яё]]);
    - [Ai]       [src/nhk_weather/services/ai.py]: the translation cache
                 [CITY_TRANSLATIONS] and [DeepSeekClient.translate];
    - [Telegram] [src/nhk_weather/services/telegram.py]: [send_message],
                 [send_photo], [send_weather_report];
    - [Browser]  [src/nhk_weather/services/browser.py]:
                 [BrowserScraper.process];
    - [Run]      [src/run.py]: [WeatherReporter._categorize_weather];
    - [Summary]  [src/nhk_weather/services/ai.py]: [DeepSeekClient.chat],
                 [build_weather_summary], [rephrase_weather_summary];
    - [TelegramSession] [TelegramClient.close];
    - [Reporter] [src/run.py]: [WeatherReporter._prepare_weather_data]
                 and [WeatherReporter.run];
    - [Config]   [src/nhk_weather/config/config.py]: [Config.get], the
                 accessors, and [TelegramClient.__init__] which reads
                 them.

    External collaborators (the chat-completion endpoint, [json.loads],
    [json.dumps], the clock, the Telegram bot and its session, the
    Playwright page, the configuration file and the environment) are not
    part of the repository; they appear as oracles that the theorems
    quantify over. *)

From Stdlib Require Import ZArith NArith List Bool Lia ZifyBool.
From Stdlib Require Import Strings.String Strings.Ascii Strings.Byte.
From stdpp Require Import base option list gmap fin_maps.

Set Default Proof Using "Type".

(* ===================================================================== *)
(** * Python strings                                                      *)
(* ===================================================================== *)

Module PyStr.

(** A Python [str] is a sequence of code points. *)
Abbreviation pystr := (list N).

(** ** Literals

    Source literals are written as they are in the Python files and
    decoded from the UTF-8 bytes of the Rocq string. *)

Definition cont (b : N) : N := N.land b 63.

Fixpoint utf8_decode (fuel : nat) (bs : list N) : pystr :=
  match fuel with
  | O => []
  | S fuel' =>
    match bs with
    | [] => []
    | b0 :: r0 =>
      if (b0 <? 128)%N then b0 :: utf8_decode fuel' r0
      else if (b0 <? 224)%N then
        match r0 with
        | b1 :: r1 =>
            (N.land b0 31 * 64 + cont b1)%N :: utf8_decode fuel' r1
        | _ => []
        end
      else if (b0 <? 240)%N then
        match r0 with
        | b1 :: b2 :: r2 =>
            (N.land b0 15 * 4096 + cont b1 * 64 + cont b2)%N
              :: utf8_decode fuel' r2
        | _ => []
        end
      else
        match r0 with
        | b1 :: b2 :: b3 :: r3 =>
            (N.land b0 7 * 262144 + cont b1 * 4096 + cont b2 * 64 + cont b3)%N
              :: utf8_decode fuel' r3
        | _ => []
        end
    end
  end.

Definition py (s : string) : pystr :=
  let bs := List.map Byte.to_N (list_byte_of_string s) in
  utf8_decode (List.length bs) bs.

(** ** Truthiness, membership, search *)

(** [bool(s)]: a string is truthy when it is not empty. *)
Definition truthy (s : pystr) : bool :=
  match s with [] => false | _ => true end.

Fixpoint starts_with (p s : pystr) : bool :=
  match p, s with
  | [], _ => true
  | _ :: _, [] => false
  | a :: p', b :: s' => (a =? b)%N && starts_with p' s'
  end.

(** [p in s]: substring test. *)
Fixpoint contains (p s : pystr) : bool :=
  starts_with p s ||
  match s with
  | [] => false
  | _ :: s' => contains p s'
  end.

(** [s.find(c)] for a one-character needle: index of the first
    occurrence, [-1] when there is none. *)
Fixpoint find_from (c : N) (s : pystr) (i : Z) : Z :=
  match s with
  | [] => (-1)%Z
  | x :: s' => if (x =? c)%N then i else find_from c s' (i + 1)%Z
  end.

Definition find (c : N) (s : pystr) : Z := find_from c s 0%Z.

(** [s.rfind(c)]: index of the last occurrence, [-1] when there is none. *)
Fixpoint rfind_from (c : N) (s : pystr) (i : Z) (last : Z) : Z :=
  match s with
  | [] => last
  | x :: s' => rfind_from c s' (i + 1)%Z (if (x =? c)%N then i else last)
  end.

Definition rfind (c : N) (s : pystr) : Z := rfind_from c s 0%Z (-1)%Z.

(** [s[a:b]] for [0 <= a]. *)
Definition slice (s : pystr) (a b : Z) : pystr :=
  List.firstn (Z.to_nat (b - a)) (List.skipn (Z.to_nat a) s).

(** ** The regular expression [[А-ЯЁа-яё]] *)

Definition is_cyrillic (c : N) : bool :=
  ((1040 <=? c) && (c <=? 1071)      (* А-Я *)
   || (c =? 1025)                    (* Ё *)
   || (1072 <=? c) && (c <=? 1103)   (* а-я *)
   || (c =? 1105))%N.                (* ё *)

(** [bool(re.search(s))]. *)
Definition cyrillic_search (s : pystr) : bool := List.existsb is_cyrillic s.

(** ** [str.strip()]

    The characters for which [str.isspace] holds. *)
Definition isspace (c : N) : bool :=
  ((9 <=? c) && (c <=? 13) || (28 <=? c) && (c <=? 32)
   || (c =? 133) || (c =? 160) || (c =? 5760)
   || (8192 <=? c) && (c <=? 8202)
   || (c =? 8232) || (c =? 8233) || (c =? 8239) || (c =? 8287)
   || (c =? 12288))%N.

Fixpoint lstrip (s : pystr) : pystr :=
  match s with
  | [] => []
  | c :: s' => if isspace c then lstrip s' else s
  end.

Definition rstrip (s : pystr) : pystr := List.rev (lstrip (List.rev s)).

Definition strip (s : pystr) : pystr := rstrip (lstrip s).

End PyStr.

Import PyStr.

(* ===================================================================== *)
(** * Exceptions and effects                                              *)
(* ===================================================================== *)

Module Eff.

(** The exceptions the services raise themselves, [RecursionError],
    which [json.loads] raises on a text nested too deep, and
    [LibraryError] for whatever a collaborator (aiogram, Playwright)
    raises. They are all subclasses of [Exception]. *)
Inductive exn : Type :=
| ValueError (msg : string)
| RuntimeError (msg : string)
| TypeError
| RecursionError
| LibraryError.

(** Outcome of a call: it returns a value or raises. *)
Inductive result (A : Type) : Type :=
| Return (a : A)
| Raise (e : exn).
Arguments Return {A} a.
Arguments Raise {A} e.

(** A computation over a mutable world [S]. What was done to the world
    before an exception is raised stays done. *)
Definition M (S A : Type) : Type := S -> result A * S.

Definition ret {S A} (a : A) : M S A := fun s => (Return a, s).

Definition raise {S A} (e : exn) : M S A := fun s => (Raise e, s).

Definition bind {S A B} (m : M S A) (k : A -> M S B) : M S B :=
  fun s =>
    match m s with
    | (Return a, s') => k a s'
    | (Raise e, s') => (Raise e, s')
    end.

(** [try: m except Exception as e: h e]. *)
Definition try_except {S A} (m : M S A) (h : exn -> M S A) : M S A :=
  fun s =>
    match m s with
    | (Return a, s') => (Return a, s')
    | (Raise e, s') => h e s'
    end.

Definition get {S} : M S S := fun s => (Return s, s).

Definition modify {S} (f : S -> S) : M S unit := fun s => (Return tt, f s).

End Eff.

Import Eff.

Declare Scope eff_scope.
Delimit Scope eff_scope with eff.
Notation "'do' x <- m ; k" := (bind m (fun x => k))
  (at level 10, x name, m at level 100, k at level 200) : eff_scope.
Notation "'do' ' p <- m ; k" := (bind m (fun x => match x with p => k end))
  (at level 10, p pattern, m at level 100, k at level 200) : eff_scope.
Notation "m ;; k" := (bind m (fun _ => k))
  (at level 100, k at level 200, right associativity) : eff_scope.
Open Scope eff_scope.

(* ===================================================================== *)
(** * services/ai.py                                                      *)
(* ===================================================================== *)

Module Ai.

(** ** JSON values, as [json.loads] builds them *)

(** Numbers are kept as integers: [translate] only looks at whether a
    value is truthy and whether it is a [str], and a fractional number
    behaves there like [JNum 0] (for [0.0]) or like a non-zero [JNum]. *)
#[warnings="-register-all"]
Inductive json : Type :=
| JNull
| JBool (b : bool)
| JNum (n : Z)
| JStr (s : pystr)
| JArr (l : list json)
| JObj (l : list (pystr * json)).

(** [bool(v)]. *)
Definition json_truthy (v : json) : bool :=
  match v with
  | JNull => false
  | JBool b => b
  | JNum n => negb (n =? 0)%Z
  | JStr s => truthy s
  | JArr l => match l with [] => false | _ => true end
  | JObj l => match l with [] => false | _ => true end
  end.

(** ** The seeded cache *)

Definition CITY_TRANSLATIONS_seed : gmap pystr pystr :=
  list_to_map
    [ (py "東京", py "Токио");
      (py "長野", py "Нагано");
      (py "新潟", py "Ниигата");
      (py "小笠原", py "Огасавара");
      (py "大阪", py "Осака");
      (py "名古屋", py "Нагоя");
      (py "金沢", py "Канадзава");
      (py "広島", py "Хиросима");
      (py "松江", py "Мацуэ");
      (py "福岡", py "Фукуока");
      (py "鹿児島", py "Кагосима");
      (py "那覇", py "Наха");
      (py "仙台", py "Сэндай");
      (py "秋田", py "Акита");
      (py "札幌", py "Саппоро");
      (py "釧路", py "Кусиро");
      (py "高知", py "Коти") ].

(** ** The world of the client

    [CITY_TRANSLATIONS] is the module-level dictionary; [chat_calls]
    records, for each call of [chat] made so far, the list of terms that
    was sent in the user message ([json.dumps(missing)]). *)
Record state : Type := mkState {
  CITY_TRANSLATIONS : gmap pystr pystr;
  chat_calls : list (list pystr)
}.

(** Outcome of [DeepSeekClient.chat]: it raises ([ValueError] without an
    API key, [RuntimeError] on a status other than 200 or on a transport
    error) or returns the text of the completion. *)
Inductive chat_result : Type :=
| ChatRaises (e : exn)
| ChatReturns (resp : pystr).

(** Outcome of [json.loads]. The text it is given starts with an opening
    brace, so a successful parse is an object, held as the list of its
    items in dictionary order. [JSONDecodeError] is the one exception
    that [translate] catches. [LoadsRaises] is any other exception:
    [json.loads] raises a plain [ValueError] on an integer literal with
    more digits than the interpreter converts, and [RecursionError] on
    a text nested too deep. *)
Inductive loads_result : Type :=
| Parsed (data : list (pystr * json))
| JSONDecodeError
| LoadsRaises (e : exn).

Section Client.

(** The endpoint: what the [n]-th call of [chat] does when asked for the
    terms [missing]. *)
Variable chat_endpoint : nat -> list pystr -> chat_result.

(** [json.loads] *)
Variable json_loads : pystr -> loads_result.

(** The world once a call of [chat] for [missing] has been made. *)
Definition logged (s : state) (missing : list pystr) : state :=
  mkState (CITY_TRANSLATIONS s) (chat_calls s ++ [missing]).

Definition chat (missing : list pystr) : M state pystr :=
  fun s =>
    match chat_endpoint (length (chat_calls s)) missing with
    | ChatRaises e => (Raise e, logged s missing)
    | ChatReturns resp => (Return resp, logged s missing)
    end.

(** [{t: CITY_TRANSLATIONS.get(t, t) for t in jp_terms}] *)
Definition lookup_all (jp_terms : list pystr) (cache : gmap pystr pystr)
  : gmap pystr pystr :=
  foldl (fun d t => <[t := default t (cache !! t)]> d) ∅ jp_terms.

(** [t in CITY_TRANSLATIONS] *)
Definition cached (cache : gmap pystr pystr) (t : pystr) : bool :=
  match cache !! t with Some _ => true | None => false end.

(** [[t for t in jp_terms if t and t not in CITY_TRANSLATIONS]] *)
Definition to_do_of (jp_terms : list pystr) (cache : gmap pystr pystr)
  : list pystr :=
  List.filter (fun t => truthy t && negb (cached cache t)) jp_terms.

(** The body of [for jp, ru in data.items()]: a candidate is good when it
    is truthy and the regular expression finds a Cyrillic letter in it.
    [re.search] raises [TypeError] on a truthy value that is not a
    string. *)
Fixpoint validate (items : list (pystr * json))
    (good : gmap pystr pystr) (bad : list pystr)
  : result (gmap pystr pystr * list pystr) :=
  match items with
  | [] => Return (good, bad)
  | (jp, ru) :: items' =>
    if json_truthy ru then
      match ru with
      | JStr s =>
        if cyrillic_search s
        then validate items' (<[jp := strip s]> good) bad
        else validate items' good (bad ++ [jp])
      | _ => Raise TypeError
      end
    else validate items' good (bad ++ [jp])
  end.

(** The [while missing and attempt <= max_retries] loop. [attempt] starts
    at 0 and grows by one per iteration, so the guard on it holds for
    [rounds = max_retries + 1 - attempt] more iterations; the loop is
    written as a recursion on that number. *)
Fixpoint retry_loop (rounds : nat) (missing : list pystr)
    (result : gmap pystr pystr)
  : M state (list pystr * gmap pystr pystr) :=
  match rounds, missing with
  | S rounds', _ :: _ =>
    do resp <- chat missing;
    let start := find 123 resp in          (* resp.find("{")  *)
    let end_ := rfind 125 resp in          (* resp.rfind("}") *)
    if (0 <=? start)%Z && (start <? end_)%Z then
      match json_loads (slice resp start (end_ + 1)) with
      | Parsed data =>
        match validate data ∅ [] with
        | Return (good, bad) =>
            retry_loop rounds' bad (good ∪ result)   (* result.update(good) *)
        | Raise e => raise e
        end
      | JSONDecodeError => retry_loop rounds' missing result
      | LoadsRaises e => raise e
      end
    else retry_loop rounds' missing result
  | _, _ => ret (missing, result)
  end.

(** [DeepSeekClient.translate]. The final [for jp in missing:
    result[jp] = jp] writes to the local [result] after it was copied
    into the cache, and the returned dictionary is read from the cache. *)
Definition translate (jp_terms : list pystr) (max_retries : Z)
  : M state (gmap pystr pystr) :=
  do s <- get;
  match to_do_of jp_terms (CITY_TRANSLATIONS s) with
  | [] => ret (lookup_all jp_terms (CITY_TRANSLATIONS s))
  | to_do =>
    do '(missing, result) <- retry_loop (Z.to_nat (max_retries + 1)) to_do ∅;
    modify (fun s => mkState (result ∪ CITY_TRANSLATIONS s) (chat_calls s));;
    do s' <- get;
    ret (lookup_all jp_terms (CITY_TRANSLATIONS s'))
  end.

(** The client after [translate] has been called for each request of a
    list in turn, whether the calls returned or raised. *)
Fixpoint session (requests : list (list pystr * Z)) (s : state) : state :=
  match requests with
  | [] => s
  | (jp_terms, max_retries) :: requests' =>
      session requests' (snd (translate jp_terms max_retries s))
  end.

(** ** Vocabulary of the properties *)

(** A candidate that [validate] accepts for [jp] among [items]: a string
    in which the regular expression finds a Cyrillic letter; [v] is what
    is stored. *)
Definition accepted_in (items : list (pystr * json)) (jp v : pystr) : Prop :=
  exists ru, (jp, JStr ru) ∈ items /\ cyrillic_search ru = true /\ v = strip ru.

(** The response [resp] holds a JSON object that carries, for [jp], a
    candidate accepted as [v]. *)
Definition answered_by (resp : pystr) (jp v : pystr) : Prop :=
  (0 <=? find 123 resp)%Z && (find 123 resp <? rfind 125 resp)%Z = true /\
  exists data,
    json_loads (slice resp (find 123 resp) (rfind 125 resp + 1))
      = Parsed data /\
    accepted_in data jp v.

(** Between the worlds [s] and [s'] a call of [chat] was made whose
    response carries, for [jp], a candidate accepted as [v]. *)
Definition answered (s s' : state) (jp v : pystr) : Prop :=
  exists n missing resp,
    length (chat_calls s) <= n /\
    chat_calls s' !! n = Some missing /\
    chat_endpoint n missing = ChatReturns resp /\
    answered_by resp jp v.

(** The same, for the call number [n] of the record in [s']. *)
Definition answered_at (s' : state) (n : nat) (jp v : pystr) : Prop :=
  exists missing resp,
    chat_calls s' !! n = Some missing /\
    chat_endpoint n missing = ChatReturns resp /\
    answered_by resp jp v.

(** Values that are falsy or strings: [re.search] does not raise. *)
Definition well_typed (items : list (pystr * json)) : Prop :=
  Forall (fun kv => json_truthy (snd kv) = true -> exists ru, snd kv = JStr ru)
         items.

(** A response in which no JSON object is found, or whose object does
    not parse. *)
Definition unusable (resp : pystr) : Prop :=
  (0 <=? find 123 resp)%Z && (find 123 resp <? rfind 125 resp)%Z = false \/
  json_loads (slice resp (find 123 resp) (rfind 125 resp + 1))
    = JSONDecodeError.

(** What makes [translate] raise at the call number [n] of [chat], asked
    for [missing]: [chat] raises; or [json.loads] raises, on the text
    between the braces of the response, an exception that is not
    [JSONDecodeError]; or the parsed object holds a value that is truthy
    and not a string, on which [re.search] raises [TypeError]. *)
Definition fails_with (n : nat) (missing : list pystr) (e : exn) : Prop :=
  chat_endpoint n missing = ChatRaises e \/
  exists resp,
    chat_endpoint n missing = ChatReturns resp /\
    (0 <=? find 123 resp)%Z && (find 123 resp <? rfind 125 resp)%Z = true /\
    (json_loads (slice resp (find 123 resp) (rfind 125 resp + 1))
       = LoadsRaises e \/
     exists data jp ru,
       json_loads (slice resp (find 123 resp) (rfind 125 resp + 1))
         = Parsed data /\
       (jp, ru) ∈ data /\ json_truthy ru = true /\
       (forall str, ru <> JStr str) /\ e = TypeError).

(** The call number [n] of [chat], asked for [missing], goes through:
    [chat] returns, [json.loads] returns or raises [JSONDecodeError] on
    the text between the braces of the response, and the values of the
    parsed object are falsy or strings. *)
Definition goes_through (n : nat) (missing : list pystr) : Prop :=
  exists resp,
    chat_endpoint n missing = ChatReturns resp /\
    ((0 <=? find 123 resp)%Z && (find 123 resp <? rfind 125 resp)%Z = true ->
     match json_loads (slice resp (find 123 resp) (rfind 125 resp + 1)) with
     | Parsed data => well_typed data
     | JSONDecodeError => True
     | LoadsRaises _ => False
     end).

End Client.

End Ai.

(* ===================================================================== *)
(** * services/telegram.py                                                *)
(* ===================================================================== *)

Module Telegram.

Abbreviation bytes := (list Byte.byte).

(** The requests the client makes to the Bot API through aiogram. *)
Inductive api_call : Type :=
| BotSendMessage (chat_id : pystr) (text : pystr)
| BotSendPhoto (chat_id : pystr) (photo : bytes) (caption : option pystr).

(** [_bot] tells whether [self._bot] holds a [Bot]; [sent] lists the
    requests attempted so far, failed ones included. *)
Record state : Type := mkState {
  _bot : bool;
  sent : list api_call
}.

Section Client.

(** [config.telegram_chat_id]. *)
Variable _chat_id : pystr.

(** Whether [Bot(token=...)] returns ([false]: it raises, as aiogram does
    on a malformed token). *)
Variable bot_constructor : bool.

(** The Bot API: whether the [n]-th request completes ([false]: the
    call raises). *)
Variable bot_api : nat -> api_call -> bool.

Definition _get_bot : M state unit :=
  do s <- get;
  if _bot s then ret tt
  else if bot_constructor
       then modify (fun s => mkState true (sent s))
       else raise LibraryError.

Definition request (c : api_call) : M state unit :=
  fun s =>
    let s' := mkState (_bot s) (sent s ++ [c]) in
    if bot_api (length (sent s)) c
    then (Return tt, s')
    else (Raise LibraryError, s').

(** [chat_id or self._chat_id], for the optional parameter [chat_id] of
    the wrappers ([None] by default). *)
Definition chat_or_default (chat_id : option pystr) : pystr :=
  match chat_id with
  | Some c => if truthy c then c else _chat_id
  | None => _chat_id
  end.

Definition send_message (text : pystr) (chat_id : option pystr)
  : M state bool :=
  if negb (truthy text) then ret false
  else
    let chat_id := chat_or_default chat_id in
    try_except
      (_get_bot;;
       request (BotSendMessage chat_id text);;
       ret true)
      (fun _ => ret false).

Definition send_photo (photo_bytes : bytes) (caption : option pystr)
    (chat_id : option pystr) : M state bool :=
  match photo_bytes with
  | [] => ret false
  | _ :: _ =>
    let chat_id := chat_or_default chat_id in
    try_except
      (_get_bot;;
       request (BotSendPhoto chat_id photo_bytes caption);;
       ret true)
      (fun _ => ret false)
  end.

Definition send_weather_report (summary : pystr) (photo_bytes : bytes)
  : M state bool :=
  try_except
    (do result <- send_photo photo_bytes (Some summary) None;
     if negb result && truthy summary then
       send_photo photo_bytes None None;;
       send_message summary None;;
       ret true
     else ret result)
    (fun _ => ret false).

End Client.

End Telegram.

(* ===================================================================== *)
(** * core/models.py and services/browser.py                              *)
(* ===================================================================== *)

Module Browser.

Abbreviation bytes := (list Byte.byte).

(** [CityWeather] *)
Record CityWeather : Type := mkCityWeather {
  jp : pystr;
  ru : pystr;
  max_c : pystr;
  alt : pystr
}.

(** One object of the array [WEATHER_SCRAPE_JS] evaluates to. *)
Record tile : Type := mkTile {
  name : pystr;
  tile_alt : pystr;
  max : pystr
}.

(** What the scraper asks of its collaborators, in the order it asks. *)
Inductive event : Type :=
| Launch
| Goto
| WaitForSelector (timeout_ms : Z)
| Sleep (ms : Z)
| EvaluateScrape
| Translate (jp_names : list pystr)
| EvaluateReplace (mapping : gmap pystr pystr)
| EvaluateNames
| AddStyleTag
| Screenshot
| BrowserClose.

(** The page, as the outcomes of the calls made to Playwright. [names n]
    is what the [n]-th read of the name elements gives: read 0 is the
    return value of [REPLACE_CITY_NAMES_JS], reads 1 to 3 are the
    retries. *)
Record page : Type := mkPage {
  launch_page : result unit;
  goto : result unit;
  wait_for_selector : result unit;
  scraped : result (list tile);
  names : nat -> result (list pystr);
  add_style_tag : result unit;
  screenshot : result bytes;
  close : result unit
}.

Section Scraper.

(** State of the translate capability handed to [process]. *)
Context {T : Type}.

(** The world: the calls made so far and the state of the capability. *)
Record state : Type := mkState {
  events : list event;
  translator : T
}.

Variable pg : page.

(** A call to a collaborator: it is recorded, then returns or raises. *)
Definition call {A} (ev : event) (r : result A) : M state A :=
  fun s => (r, mkState (events s ++ [ev]) (translator s)).

(** [await translate_func(jp_names)] *)
Definition call_translate (translate_func : list pystr -> M T (gmap pystr pystr))
    (jp_names : list pystr) : M state (gmap pystr pystr) :=
  fun s =>
    let '(r, t') := translate_func jp_names (translator s) in
    (r, mkState (events s ++ [Translate jp_names]) t').

(** [any(self._cyrillic_re.search(n) for n in names)] *)
Definition any_cyrillic (ns : list pystr) : bool :=
  List.existsb cyrillic_search ns.

Definition scrape_weather_data : M state (list tile) :=
  call EvaluateScrape (scraped pg).

(** [for i in range(3)] of [replace_city_names], [n] iterations left. *)
Fixpoint verify_retry (n : nat) (i : nat) : M state bool :=
  match n with
  | O => ret false
  | S n' =>
    call (Sleep 300) (Return tt);;
    do ns <- call EvaluateNames (names pg (S i));
    if any_cyrillic ns then ret true else verify_retry n' (S i)
  end.

Definition replace_city_names (mapping : gmap pystr pystr) : M state bool :=
  do ns <- call (EvaluateReplace mapping) (names pg 0);
  if any_cyrillic ns then ret true else verify_retry 3 0.

Definition apply_styles : M state unit :=
  call AddStyleTag (add_style_tag pg).

Definition capture_screenshot : M state bytes :=
  call Screenshot (screenshot pg).

(** [r["max"] if r["max"] != "-" else ""] *)
Definition normalize_max (m : pystr) : pystr :=
  if decide (m = py "-") then [] else m.

Definition process (translate_func : list pystr -> M T (gmap pystr pystr))
  : M state (list CityWeather * bytes) :=
  call Launch (launch_page pg);;
  call Goto (goto pg);;
  call (WaitForSelector 30000) (wait_for_selector pg);;
  call (Sleep 10000) (Return tt);;
  do raw_data <- scrape_weather_data;
  match raw_data with
  | [] => raise (RuntimeError "No weather tiles found")
  | _ :: _ =>
    let jp_names :=
      List.map name (List.filter (fun r => truthy (name r)) raw_data) in
    do mapping <- call_translate translate_func jp_names;
    do dom_ok <- replace_city_names mapping;
    apply_styles;;
    do shot <- capture_screenshot;
    call BrowserClose (close pg);;
    let weather_data :=
      List.map
        (fun r => mkCityWeather (name r)
                                 (default (name r) (mapping !! name r))
                                 (normalize_max (max r))
                                 (tile_alt r))
        (List.filter (fun r => truthy (name r)) raw_data) in
    ret (weather_data, shot)
  end.

End Scraper.

Arguments state T : clear implicits.

(** The calls [process] makes up to and including the scrape. *)
Definition opening : list event :=
  [Launch; Goto; WaitForSelector 30000; Sleep 10000; EvaluateScrape].

End Browser.

(* ===================================================================== *)
(** * run.py                                                              *)
(* ===================================================================== *)

Module Run.

(** [WeatherReporter._categorize_weather] *)
Definition _categorize_weather (alt : pystr) : pystr :=
  if contains (py "雷") alt then py "гроза"
  else if contains (py "雪") alt then py "снег"
  else if contains (py "晴れ時々くもり") alt then py "солнечно, временами облачно"
  else if contains (py "くもり時々雨") alt then py "облачно, временами дождь"
  else if contains (py "雨時々やむ") alt then py "дождь с прояснениями"
  else if contains (py "雨") alt then py "дождь"
  else if contains (py "晴") alt then py "солнечно"
  else if contains (py "くも") alt || contains (py "曇") alt then py "облачно"
  else alt.

(** The classifier as the specification words it: a fixed list of
    entries, each a set of substring patterns with its canonical phrase,
    tried in order; the first entry with a pattern occurring in the
    input wins, and the input is returned when none does. *)
Definition pattern_list : list (list pystr * pystr) :=
  [ ([py "雷"], py "гроза");                                  (* storm *)
    ([py "雪"], py "снег");                                   (* snow *)
    ([py "晴れ時々くもり"], py "солнечно, временами облачно"); (* compounds *)
    ([py "くもり時々雨"], py "облачно, временами дождь");
    ([py "雨時々やむ"], py "дождь с прояснениями");
    ([py "雨"], py "дождь");                                  (* rain *)
    ([py "晴"], py "солнечно");                               (* sunny *)
    ([py "くも"; py "曇"], py "облачно") ].                   (* cloudy *)

Definition entry_matches (alt : pystr) (e : list pystr * pystr) : bool :=
  List.existsb (fun p => contains p alt) (fst e).

Definition first_match (table : list (list pystr * pystr)) (alt : pystr)
  : pystr :=
  match List.find (entry_matches alt) table with
  | Some e => snd e
  | None => alt
  end.

(** The phrases of the simple entries (rain, sunny, cloudy) and the
    patterns of the compound ones. *)
Definition simple_categories : list pystr :=
  [py "дождь"; py "солнечно"; py "облачно"].

Definition compound_patterns : list pystr :=
  [py "晴れ時々くもり"; py "くもり時々雨"; py "雨時々やむ"].

End Run.

(* ===================================================================== *)
(** * Scenarios                                                           *)
(* ===================================================================== *)

(** Concrete collaborators and inputs, on which the services are run. *)

Module TranslateScenario.

Import Ai.

(** [s] between double quotes, as in a JSON text. *)
Definition quoted (s : pystr) : pystr := 34%N :: s ++ [34%N].

(** [json.loads] on the finitely many texts of a scenario: each is listed
    with the object it denotes; no other text is parsed. *)
Definition loads_table (tbl : list (pystr * list (pystr * json)))
    (text : pystr) : loads_result :=
  match List.find (fun e => bool_decide (fst e = text)) tbl with
  | Some e => Parsed (snd e)
  | None => JSONDecodeError
  end.

(** The client at start-up: the seeded cache, no call made yet. *)
Definition seeded : state := mkState CITY_TRANSLATIONS_seed [].

(** *** The endpoint is down *)

Definition endpoint_down (n : nat) (missing : list pystr) : chat_result :=
  ChatRaises (RuntimeError "DeepSeek API error: 503 - Service Unavailable").

Definition nothing_parses (text : pystr) : loads_result :=
  JSONDecodeError.

(** *** Prose, then a transport error, then a proper answer *)

Definition kyoto_object : pystr :=
  py "{" ++ quoted (py "京都") ++ py ": " ++ quoted (py "Киото") ++ py "}".

Definition flaky_endpoint (n : nat) (missing : list pystr) : chat_result :=
  match n with
  | 0 => ChatReturns (py "Извините, я не могу помочь.")
  | 1 => ChatRaises (RuntimeError "DeepSeek API request failed: timeout")
  | _ => ChatReturns kyoto_object
  end.

Definition kyoto_loads : pystr -> loads_result :=
  loads_table [ (kyoto_object, [(py "京都", JStr (py "Киото"))]) ].

(** *** An answer that also renames a seeded city *)

Definition renaming_object : pystr :=
  py "{" ++ quoted (py "京都") ++ py ": " ++ quoted (py "Киото") ++ py ", "
         ++ quoted (py "東京") ++ py ": " ++ quoted (py "Токё") ++ py "}".

Definition renaming_endpoint (n : nat) (missing : list pystr) : chat_result :=
  ChatReturns (py "Вот перевод: " ++ renaming_object).

Definition renaming_loads : pystr -> loads_result :=
  loads_table
    [ (renaming_object,
       [(py "京都", JStr (py "Киото")); (py "東京", JStr (py "Токё"))]) ].

(** *** A renaming answer followed by a transport error *)

Definition latin_kyoto_object : pystr :=
  py "{" ++ quoted (py "京都") ++ py ": " ++ quoted (py "Kyoto") ++ py ", "
         ++ quoted (py "東京") ++ py ": " ++ quoted (py "Токё") ++ py "}".

Definition answer_then_error (n : nat) (missing : list pystr) : chat_result :=
  match n with
  | 0 => ChatReturns latin_kyoto_object
  | _ => ChatRaises (RuntimeError "DeepSeek API request failed: timeout")
  end.

Definition answer_then_error_loads : pystr -> loads_result :=
  loads_table
    [ (latin_kyoto_object,
       [(py "京都", JStr (py "Kyoto")); (py "東京", JStr (py "Токё"))]) ].

(** *** A seeded city renamed in one round and again in the next *)

Definition tokyo_again_object : pystr :=
  py "{" ++ quoted (py "京都") ++ py ": " ++ quoted (py "Киото") ++ py ", "
         ++ quoted (py "東京") ++ py ": " ++ quoted (py "Тоокё") ++ py "}".

Definition answer_twice (n : nat) (missing : list pystr) : chat_result :=
  match n with
  | 0 => ChatReturns latin_kyoto_object
  | _ => ChatReturns tokyo_again_object
  end.

Definition answer_twice_loads : pystr -> loads_result :=
  loads_table
    [ (latin_kyoto_object,
       [(py "京都", JStr (py "Kyoto")); (py "東京", JStr (py "Токё"))]);
      (tokyo_again_object,
       [(py "京都", JStr (py "Киото")); (py "東京", JStr (py "Тоокё"))]) ].

(** *** An integer literal too long for [json.loads]

    CPython converts integer literals of at most 4300 digits; on a
    longer one [json.loads] raises [ValueError], which is not a
    [JSONDecodeError]. *)

Definition overlong_object : pystr :=
  py "{" ++ quoted (py "京都") ++ py ": " ++ repeat 49%N 4301 ++ py "}".

Definition overlong_endpoint (n : nat) (missing : list pystr) : chat_result :=
  ChatReturns overlong_object.

Definition overlong_loads (text : pystr) : loads_result :=
  if bool_decide (text = overlong_object)
  then LoadsRaises
         (ValueError "Exceeds the limit (4300 digits) for integer string conversion: value has 4301 digits; use sys.set_int_max_str_digits() to increase the limit")
  else JSONDecodeError.

(** *** A number where a name is expected *)

Definition number_object : pystr :=
  py "{" ++ quoted (py "京都") ++ py ": 7}".

Definition number_endpoint (n : nat) (missing : list pystr) : chat_result :=
  ChatReturns number_object.

Definition number_loads : pystr -> loads_result :=
  loads_table [ (number_object, [(py "京都", JNum 7)]) ].

(** *** One term resolved, one never *)

Definition nara_object : pystr :=
  py "{" ++ quoted (py "京都") ++ py ": " ++ quoted (py "Kyoto") ++ py ", "
         ++ quoted (py "奈良") ++ py ": " ++ quoted (py " Нара ") ++ py "}".

Definition empty_kyoto_object : pystr :=
  py "{" ++ quoted (py "京都") ++ py ": " ++ quoted [] ++ py "}".

Definition stubborn_endpoint (n : nat) (missing : list pystr) : chat_result :=
  match n with
  | 0 => ChatReturns nara_object
  | 1 => ChatReturns empty_kyoto_object
  | _ => ChatReturns (py "?")
  end.

Definition stubborn_loads : pystr -> loads_result :=
  loads_table
    [ (nara_object,
       [(py "京都", JStr (py "Kyoto")); (py "奈良", JStr (py " Нара "))]);
      (empty_kyoto_object, [(py "京都", JStr [])]) ].

End TranslateScenario.

Module DeliveryScenario.

Import Telegram.

Definition channel : pystr := py "@nhk_weather_ru".

(** The first bytes of a PNG file. *)
Definition png : bytes := [x89; x50; x4e; x47]%byte.

(** A fresh client: no [Bot] yet, nothing sent. *)
Definition fresh : state := mkState false [].

(** Every request completes. *)
Definition api_up (n : nat) (c : api_call) : bool := true.

(** Telegram refuses a photo that comes with a caption (as it does when
    the caption is too long) and accepts the rest. *)
Definition caption_refused (n : nat) (c : api_call) : bool :=
  match c with
  | BotSendPhoto _ _ (Some _) => false
  | _ => true
  end.

End DeliveryScenario.

Module PageScenario.

Import Browser.

Definition png : bytes := [x89; x50; x4e; x47]%byte.

(** A page that loads and renders the map, with the given tiles; the
    name elements read back as the tiles' names. *)
Definition page_with (tiles : list tile) : page :=
  mkPage (Return tt) (Return tt) (Return tt) (Return tiles)
         (fun _ => Return (List.map name tiles))
         (Return tt) (Return png) (Return tt).

(** No tile at all. *)
Definition blank_page : page := page_with [].

(** Two tiles, neither with a name. *)
Definition nameless_page : page :=
  page_with [ mkTile [] (py "晴れ") (py "25"); mkTile [] [] (py "-") ].

(** One named tile among nameless ones. *)
Definition mixed_page : page :=
  page_with [ mkTile [] (py "晴れ") (py "25");
              mkTile (py "東京") (py "くもり時々雨") (py "-") ].

(** The translate capability of the pipeline: [DeepSeekClient.translate]
    with its default [max_retries], here with the endpoint down. *)
Definition offline_translate : list pystr -> M Ai.state (gmap pystr pystr) :=
  fun jp_names =>
    Ai.translate TranslateScenario.endpoint_down
                 TranslateScenario.nothing_parses jp_names 2.

Definition start : state Ai.state := mkState [] TranslateScenario.seeded.

End PageScenario.

(* ===================================================================== *)
(** * services/ai.py: the summary and its rephrasing                      *)
(* ===================================================================== *)

Module Summary.

Import Ai.

(** [MessageDict] *)
Record MessageDict : Type := mkMessage {
  role : pystr;
  content : pystr
}.

(** [WeatherRecord] *)
Record WeatherRecord : Type := mkWeatherRecord {
  jp : pystr;
  ru : pystr;
  max_c : pystr;
  alt : pystr;
  condition : pystr
}.

(** An entry of [payload] in [build_weather_summary]; [payload_max_c] is
    the key [max_c]. *)
Record payload_entry : Type := mkPayloadEntry {
  city_ru : pystr;
  city_jp : pystr;
  payload_max_c : pystr;
  condition_alt : pystr
}.

(** What [chat] posts. The temperatures in the source are 0.7, 0.5 and
    the default 0.2; [temperature] counts tenths. *)
Record request : Type := mkRequest {
  messages : list MessageDict;
  temperature : N
}.

(** The requests posted so far. *)
Record state : Type := mkState {
  requests : list request
}.

(** [WEATHER_SUMMARY_SYSTEM_PROMPT_TEMPLATE.format(date=date)]: the
    template has the one field [{date}]. Double quotes (34) and line
    feeds (10) of the Python literal are written as code points. *)
Definition WEATHER_SUMMARY_SYSTEM_PROMPT (date : pystr) : pystr :=
  py "Ты — лаконичный русскоязычный метео-редактор. Сегодняшняя " ++
  py "дата: " ++
  date ++
  py ". Используй ТОЛЬКО факты из переданного JSON. Ничего не " ++
  py "выдумывай: никаких температур, городов или явлений, " ++
  py "которых нет в данных. Сделай 1–2 предложения." ++
  [10%N] ++
  [10%N] ++
  py "Обязательно:" ++
  [10%N] ++
  py "• КРИТИЧЕСКИ ВАЖНО: ВСЕГДА указывай температуру в градусах " ++
  py "Цельсия (например, +37°C) для упоминаемых городов. Поле " ++
  py "max_c содержит эту информацию." ++
  [10%N] ++
  py "• Упомяни текущую дату в контексте прогноза погоды." ++
  [10%N] ++
  py "• Упомяни погоду в Токио, если он есть в списке." ++
  [10%N] ++
  py "• Упомяни один южный город из списка и Саппоро (определи " ++
  py "по общеизвестной географии названий)." ++
  [10%N] ++
  py "• Отметь заметные явления (дождь, гроза, снег и т.п.), " ++
  py "если они есть." ++
  [10%N] ++
  py "• Не перечисляй все города подряд, только ключевые." ++
  [10%N] ++
  py "• Добавляй уместные эмодзи (например, 🌧️ для дождя, ☀️ для " ++
  py "солнца, 🌩️ для грозы), но не перебарщивай (1-2 эмодзи на " ++
  py "весь текст)." ++
  [10%N] ++
  py "• Используй тире (—) для выделения важных частей " ++
  py "сообщения." ++
  [10%N] ++
  py "• Каждый раз формулируй прогноз по-разному, избегай " ++
  py "шаблонных фраз." ++
  [10%N] ++
  py "• Если температура не указана, то не пиши ничего про " ++
  py "температуру." ++
  [10%N] ++
  py "Пример формата: " ++
  [34%N] ++
  py "Сегодня по всей Японии — жара: в Токио и Осаке до +37°C, " ++
  py "душно и солнечно. 🌧️ В Саппоро — грозы и дожди, на юге " ++
  py "местами возможны кратковременные осадки." ++
  [34%N] ++
  [10%N] ++
  py "Формат ответа: чистый текст, без списков и кавычек.".

Definition WEATHER_SUMMARY_USER_PROMPT : pystr :=
  py "Данные по городам (макс. температура в °C и описание " ++
  py "погоды в alt):" ++
  [10%N].

Definition WEATHER_REPHRASE_SYSTEM_PROMPT : pystr :=
  py "Ты — опытный русскоязычный редактор метеосводок. " ++
  py "Перефразируй предоставленный текст прогноза погоды, чтобы " ++
  py "он звучал более естественно и профессионально на русском " ++
  py "языке. ВАЖНО: Используй МАКСИМУМ 2 ПРЕДЛОЖЕНИЯ для всего " ++
  py "прогноза. Сохрани все ключевые фактические данные (города, " ++
  py "температуры, погодные условия, эмодзи), но сделай текст " ++
  py "лаконичным. Используй более разнообразные и точные " ++
  py "выражения для описания погодных явлений. Пример хорошего " ++
  py "стиля (2 предложения): " ++
  [34%N] ++
  py "28 июля в Токио — солнечно ☀️, а на юге в Нахе — облачно с " ++
  py "переходом в дождь 🌧️. В Саппоро — переменная облачность с " ++
  py "кратковременными дождями." ++
  [34%N].

Section Client.

(** [config.deepseek_api_key] *)
Variable _api_key : pystr.

(** The endpoint: what the [n]-th post does. [ChatReturns] carries
    [data["choices"][0]["message"]["content"]]; [ChatRaises] the
    [RuntimeError] of a status other than 200 or of a transport error,
    or whatever reading the body raises. *)
Variable endpoint : nat -> request -> chat_result.

(** [datetime.now(jst).strftime("%Y-%m-%d")] *)
Variable current_date : pystr.

(** [json.dumps(payload, ensure_ascii=False, indent=2)] *)
Variable json_dumps : list payload_entry -> pystr.

(** [DeepSeekClient.chat] *)
Definition chat (messages : list MessageDict) (temperature : N)
  : M state pystr :=
  if negb (truthy _api_key)
  then raise (ValueError "DeepSeek API key is not set")
  else fun s =>
    let req := mkRequest messages temperature in
    let s' := mkState (requests s ++ [req]) in
    match endpoint (length (requests s)) req with
    | ChatRaises e => (Raise e, s')
    | ChatReturns text => (Return (strip text), s')
    end.

(** The [payload] list of [build_weather_summary]. *)
Definition payload_of (records : list WeatherRecord) : list payload_entry :=
  List.map (fun r => mkPayloadEntry (ru r) (jp r) (max_c r) (alt r)) records.

(** [DeepSeekClient.build_weather_summary] *)
Definition build_weather_summary (records : list WeatherRecord)
  : M state pystr :=
  let payload := payload_of records in
  let system :=
    mkMessage (py "system") (WEATHER_SUMMARY_SYSTEM_PROMPT current_date) in
  let user :=
    mkMessage (py "user") (WEATHER_SUMMARY_USER_PROMPT ++ json_dumps payload) in
  chat [system; user] 7.

(** [DeepSeekClient.rephrase_weather_summary] *)
Definition rephrase_weather_summary (summary : pystr) : M state pystr :=
  if negb (truthy summary) then ret summary
  else
    let system := mkMessage (py "system") WEATHER_REPHRASE_SYSTEM_PROMPT in
    let user := mkMessage (py "user") summary in
    do rephrased <- chat [system; user] 5;
    ret rephrased.

End Client.

End Summary.

(* ===================================================================== *)
(** * services/telegram.py: releasing the session                         *)
(* ===================================================================== *)

Module TelegramSession.

Import Telegram.

(** The client together with the number of times the session of its
    [Bot] was asked to close. *)
Record state : Type := mkState {
  client : Telegram.state;
  session_closes : nat
}.

Section Client.

(** Whether [self._bot.session.close()] returns ([false]: it raises). *)
Variable session_close : bool.

(** [TelegramClient.close] *)
Definition close : M state unit :=
  do s <- get;
  if _bot (client s) then
    (fun s => (if session_close then Return tt else Raise LibraryError,
               mkState (client s) (S (session_closes s))));;
    modify (fun s => mkState (Telegram.mkState false (sent (client s)))
                             (session_closes s))
  else ret tt.

End Client.

End TelegramSession.

(* ===================================================================== *)
(** * run.py: the workflow                                                *)
(* ===================================================================== *)

Module Reporter.

(** The world of one run: the browser with the translating client, the
    requests of the summarising client, the Telegram client. *)
Record world : Type := mkWorld {
  browser : Browser.state Ai.state;
  summaries : Summary.state;
  telegram : TelegramSession.state
}.

(** A computation on a part of the world, run on the whole. *)
Definition on_browser {A} (m : M (Browser.state Ai.state) A) : M world A :=
  fun w =>
    let '(r, b) := m (browser w) in
    (r, mkWorld b (summaries w) (telegram w)).

Definition on_summaries {A} (m : M Summary.state A) : M world A :=
  fun w =>
    let '(r, a) := m (summaries w) in
    (r, mkWorld (browser w) a (telegram w)).

Definition on_telegram {A} (m : M TelegramSession.state A) : M world A :=
  fun w =>
    let '(r, t) := m (telegram w) in
    (r, mkWorld (browser w) (summaries w) t).

Definition on_client {A} (m : M Telegram.state A) : M TelegramSession.state A :=
  fun t =>
    let '(r, c) := m (TelegramSession.client t) in
    (r, TelegramSession.mkState c (TelegramSession.session_closes t)).

(** [try: m finally: f]. The outcome is that of [m], unless [f] raises. *)
Definition try_finally {S A} (m : M S A) (f : M S unit) : M S A :=
  fun s =>
    let '(r, s1) := m s in
    match f s1 with
    | (Return _, s2) => (r, s2)
    | (Raise e, s2) => (Raise e, s2)
    end.

Section Workflow.

Variable pg : Browser.page.
Variable chat_endpoint : nat -> list pystr -> Ai.chat_result.
Variable json_loads : pystr -> Ai.loads_result.
Variable _api_key : pystr.
Variable endpoint : nat -> Summary.request -> Ai.chat_result.
Variable current_date : pystr.
Variable json_dumps : list Summary.payload_entry -> pystr.
Variable _chat_id : pystr.
Variable bot_constructor : bool.
Variable bot_api : nat -> Telegram.api_call -> bool.
Variable session_close : bool.

(** [WeatherReporter._prepare_weather_data] *)
Definition _prepare_weather_data (weather_data : list Browser.CityWeather)
  : list Summary.WeatherRecord :=
  List.map
    (fun record =>
       Summary.mkWeatherRecord
         (Browser.jp record) (Browser.ru record)
         (Browser.max_c record) (Browser.alt record)
         (Run._categorize_weather (Browser.alt record)))
    weather_data.

(** [self._ai_client.translate], with its default [max_retries]. *)
Definition translate (jp_names : list pystr) : M Ai.state (gmap pystr pystr) :=
  Ai.translate chat_endpoint json_loads jp_names 2.

(** [WeatherReporter.run] *)
Definition run : M world bool :=
  try_finally
    (try_except
       (do '(weather_data, screenshot) <- on_browser (Browser.process pg translate);
        match weather_data with
        | [] => ret false
        | _ :: _ =>
          let processed_data := _prepare_weather_data weather_data in
          do initial_summary <-
            on_summaries
              (Summary.build_weather_summary _api_key endpoint current_date
                 json_dumps processed_data);
          do summary <-
            on_summaries
              (Summary.rephrase_weather_summary _api_key endpoint
                 initial_summary);
          do result <-
            on_telegram
              (on_client
                 (Telegram.send_weather_report _chat_id bot_constructor
                    bot_api summary screenshot));
          ret result
        end)
       (fun _ => ret false))
    (on_telegram (TelegramSession.close session_close)).

(** The Telegram client with the requests of a delivery added. *)
Definition delivered (t : TelegramSession.state) (c : Telegram.state)
  : TelegramSession.state :=
  TelegramSession.mkState c (TelegramSession.session_closes t).

(** The [try] block of [run] with its [except] clause, in one piece:
    whether it yields [True], and the world it leaves. [run] is this
    followed by [close] (lemma [run_unfold]). *)
Definition attempt (w : world) : bool * world :=
  let '(r0, b) := Browser.process pg translate (browser w) in
  match r0 with
  | Raise _ | Return ([], _) => (false, mkWorld b (summaries w) (telegram w))
  | Return (wd, shot) =>
    let '(r1, a1) := Summary.build_weather_summary _api_key endpoint current_date json_dumps
        (_prepare_weather_data wd) (summaries w) in
    match r1 with
    | Raise _ => (false, mkWorld b a1 (telegram w))
    | Return initial =>
      let '(r2, a2) := Summary.rephrase_weather_summary _api_key endpoint initial a1 in
      match r2 with
      | Raise _ => (false, mkWorld b a2 (telegram w))
      | Return summary =>
        let '(r3, c3) :=
          Telegram.send_weather_report _chat_id bot_constructor bot_api summary
            shot (TelegramSession.client (telegram w)) in
        (match r3 with Return ok => ok | Raise _ => false end,
         mkWorld b a2 (delivered (telegram w) c3))
      end
    end
  end.

End Workflow.

End Reporter.

(* ===================================================================== *)
(** * config/config.py                                                    *)
(* ===================================================================== *)

Module Config.

Import Ai.

(** A value of the top-level dictionary: a dictionary, or a JSON value
    of another kind. *)
Inductive section_value : Type :=
| Dict (d : gmap pystr json)
| NotDict.

(** Outcome of an accessor: a value, or the [AttributeError] of calling
    [.get] on what is not a dictionary. *)
Inductive outcome (A : Type) : Type :=
| Value (v : A)
| AttributeError.
Arguments Value {A} v.
Arguments AttributeError {A}.

Section Settings.

(** [self._config], as [json.load] gave it, and [os.environ]. *)
Variable _config : gmap pystr section_value.
Variable environ : gmap pystr pystr.

(** [Config.get]; [default] is [JNull] where the source passes [None]. *)
Definition get (section key : pystr) (default : json) : outcome json :=
  match _config !! section with
  | None => Value default
  | Some (Dict d) => Value (option.default default (d !! key))
  | Some NotDict => AttributeError
  end.

(** What the file holds under [section] and [key], when the section is
    a dictionary with that key. *)
Definition stored (section key : pystr) : option json :=
  match _config !! section with
  | Some (Dict d) => d !! key
  | _ => None
  end.

(** [self.get(section, key) or os.environ.get(name, '')] *)
Definition get_or_environ (section key name : pystr) : outcome json :=
  match get section key JNull with
  | Value v =>
      if json_truthy v then Value v
      else Value (JStr (option.default [] (environ !! name)))
  | AttributeError => AttributeError
  end.

Definition deepseek_api_key : outcome json :=
  get_or_environ (py "deepseek") (py "api_key") (py "DEEPSEEK_API_KEY").

Definition deepseek_api_url : outcome json :=
  get (py "deepseek") (py "api_url")
      (JStr (py "https://api.deepseek.com/chat/completions")).

Definition deepseek_model : outcome json :=
  get (py "deepseek") (py "model") (JStr (py "deepseek-chat")).

Definition telegram_bot_token : outcome json :=
  get_or_environ (py "telegram") (py "bot_token") (py "TELEGRAM_BOT_TOKEN").

Definition telegram_chat_id : outcome json :=
  get_or_environ (py "telegram") (py "chat_id") (py "TELEGRAM_CHAT_ID").

Definition nhk_url : outcome json :=
  get (py "nhk") (py "url") (JStr (py "https://www.nhk.or.jp/kishou-saigai/")).

Definition nhk_map_selector : outcome json :=
  get (py "nhk") (py "map_selector") (JStr (py ".theWeatherForecastWeeklyMap")).

(** Outcome of [TelegramClient.__init__]: the client with its token and
    chat id, or the exception raised. *)
Inductive init_outcome : Type :=
| Client (bot_token chat_id : json)
| InitValueError (msg : string)
| InitAttributeError.

(** [TelegramClient.__init__] *)
Definition telegram_client_init : init_outcome :=
  match telegram_bot_token with
  | AttributeError => InitAttributeError
  | Value bot_token =>
    match telegram_chat_id with
    | AttributeError => InitAttributeError
    | Value chat_id =>
      if negb (json_truthy bot_token)
      then InitValueError "Telegram bot token is not set"
      else if negb (json_truthy chat_id)
      then InitValueError "Telegram chat ID is not set"
      else Client bot_token chat_id
    end
  end.

End Settings.

End Config.

(* ===================================================================== *)
(** * More scenarios                                                      *)
(* ===================================================================== *)

Module WorkflowScenario.

Import Ai TranslateScenario.

(** *** An answer that leaves out a term it was asked for *)

Definition nara_only_object : pystr :=
  py "{" ++ quoted (py "奈良") ++ py ": " ++ quoted (py "Нара") ++ py "}".

Definition partial_endpoint (n : nat) (missing : list pystr) : chat_result :=
  ChatReturns nara_only_object.

Definition partial_loads : pystr -> loads_result :=
  loads_table [ (nara_only_object, [(py "奈良", JStr (py "Нара"))]) ].

(** *** The summarising client *)

Definition api_key : pystr := py "sk-0123".

Definition date : pystr := py "2025-07-28".

(** A stand-in for [json.dumps] on the payload: the fields of each
    entry, one entry per line. *)
Definition dumps (payload : list Summary.payload_entry) : pystr :=
  concat
    (List.map
       (fun e => Summary.city_ru e ++ py " / " ++ Summary.city_jp e
                 ++ py " / " ++ Summary.payload_max_c e ++ py " / "
                 ++ Summary.condition_alt e ++ [10%N])
       payload).

(** The endpoint answers with a text padded with white space. *)
Definition padded_endpoint (n : nat) (req : Summary.request) : chat_result :=
  ChatReturns (py "  В Токио солнечно, +32°C. " ++ [10%N]).

(** The endpoint answers with an error status. *)
Definition summary_down (n : nat) (req : Summary.request) : chat_result :=
  ChatRaises (RuntimeError "DeepSeek API error: 500 - Internal Server Error").

(** One record, classified in two ways. *)
Definition tokyo_as (condition : pystr) : Summary.WeatherRecord :=
  Summary.mkWeatherRecord (py "東京") (py "Токио") (py "32") (py "晴れ")
                          condition.

(** *** Pages *)

(** Two seeded cities, one without a temperature. *)
Definition tokyo_page : Browser.page :=
  PageScenario.page_with
    [ Browser.mkTile (py "東京") (py "晴れ") (py "32");
      Browser.mkTile (py "札幌") (py "雨") (py "-") ].

(** A city that is not seeded. *)
Definition kyoto_page : Browser.page :=
  PageScenario.page_with [ Browser.mkTile (py "京都") (py "くもり") (py "30") ].

(** The names read back after the injection took effect. *)
Definition russian_reads (n : nat) : list pystr :=
  match n with
  | 0 | 1 => [py "東京"; py "札幌"]
  | _ => [py "Токио"; py "Саппоро"]
  end.

Definition late_page : Browser.page :=
  Browser.mkPage (Return tt) (Return tt) (Return tt)
    (Return [ Browser.mkTile (py "東京") (py "晴れ") (py "32");
              Browser.mkTile (py "札幌") (py "雨") (py "-") ])
    (fun n => Return (russian_reads n))
    (Return tt) (Return PageScenario.png) (Return tt).

(** *** Telegram *)

(** Every request is refused. *)
Definition api_down (n : nat) (c : Telegram.api_call) : bool := false.

(** A client that holds a [Bot] and has sent one message. *)
Definition busy : TelegramSession.state :=
  TelegramSession.mkState
    (Telegram.mkState true
       [Telegram.BotSendMessage DeliveryScenario.channel (py "Дождь.")])
    0.

(** *** The world at the start of a run *)

Definition fresh_world : Reporter.world :=
  Reporter.mkWorld PageScenario.start (Summary.mkState [])
                   (TelegramSession.mkState DeliveryScenario.fresh 0).

(** *** Configuration *)

(** Credentials in the environment only. *)
Definition environ_full : gmap pystr pystr :=
  <[py "TELEGRAM_BOT_TOKEN" := py "123456:ABC"]>
    (<[py "TELEGRAM_CHAT_ID" := py "@nhk_weather_ru"]> ∅).

(** A file with a token and an empty chat id. *)
Definition file_config : gmap pystr Config.section_value :=
  <[py "telegram" :=
      Config.Dict (<[py "bot_token" := JStr (py "999999:XYZ")]>
                     (<[py "chat_id" := JStr []]> ∅))]> ∅.

End WorkflowScenario.

(* ===================================================================== *)
(** * Properties of the string operations                                 *)
(* ===================================================================== *)

Example py_ascii : py "{a}" = [123; 97; 125]%N.
Proof. reflexivity. Qed.

Example py_kanji : py "東京" = [26481; 20140]%N.
Proof. reflexivity. Qed.

Example py_cyrillic : py "Ёж" = [1025; 1078]%N.
Proof. reflexivity. Qed.

Example strip_spaces : strip (py "  Киото ") = py "Киото".
Proof. reflexivity. Qed.

Example find_rfind :
  find 123 (py "ok: {a: b} done") = 4%Z /\
  rfind 125 (py "ok: {a: b} done") = 9%Z /\
  slice (py "ok: {a: b} done") 4 (9 + 1) = py "{a: b}".
Proof. repeat split; reflexivity. Qed.

Section StringFacts.

Implicit Types p s l r : pystr.

Lemma starts_with_spec p s :
  starts_with p s = true <-> exists r, s = p ++ r.
Proof.
  revert s. induction p as [|a p IH]; intros s; simpl.
  - split; [intros _; by exists s | done].
  - destruct s as [|b s].
    + split; [done | intros [r Hr]; discriminate].
    + rewrite andb_true_iff, N.eqb_eq, IH. split.
      * intros [-> [r ->]]. by exists r.
      * intros [r [= -> ->]]. split; [done | by exists r].
Qed.

Lemma contains_spec p s :
  contains p s = true <-> exists l r, s = l ++ p ++ r.
Proof.
  induction s as [|b s IH]; simpl.
  - rewrite orb_false_r, starts_with_spec. split.
    + intros [r Hr]. by exists [], r.
    + intros [l [r Hr]]. destruct l; [by exists r | discriminate].
  - rewrite orb_true_iff, starts_with_spec, IH. split.
    + intros [[r Hr] | [l [r ->]]]; [by exists [], r | by exists (b :: l), r].
    + intros [[|c l] [r Hr]]; [left; by exists r |].
      injection Hr as -> ->. right. by exists l, r.
Qed.

(** Substring is transitive: what occurs in a pattern occurs wherever the
    pattern does. *)
Lemma contains_trans p q s :
  contains p q = true -> contains q s = true -> contains p s = true.
Proof.
  rewrite !contains_spec. intros [l1 [r1 ->]] [l2 [r2 ->]].
  exists (l2 ++ l1), (r1 ++ r2). by rewrite <- !app_assoc.
Qed.

Lemma cyrillic_not_space c : is_cyrillic c = true -> isspace c = false.
Proof.
  unfold is_cyrillic, isspace. lia.
Qed.

Lemma cyrillic_search_lstrip s :
  cyrillic_search s = true -> cyrillic_search (lstrip s) = true.
Proof.
  unfold cyrillic_search. induction s as [|c s IH]; simpl; [done |].
  destruct (isspace c) eqn:Hsp; [| done].
  destruct (is_cyrillic c) eqn:Hc; [| done].
  apply cyrillic_not_space in Hc. congruence.
Qed.

Lemma cyrillic_search_rev s :
  cyrillic_search (List.rev s) = cyrillic_search s.
Proof.
  unfold cyrillic_search. induction s as [|c s IH]; simpl; [done |].
  rewrite existsb_app, IH. simpl. rewrite orb_false_r. apply orb_comm.
Qed.

Lemma cyrillic_search_strip s :
  cyrillic_search s = true -> cyrillic_search (strip s) = true.
Proof.
  intros H. unfold strip, rstrip.
  rewrite cyrillic_search_rev. apply cyrillic_search_lstrip.
  rewrite cyrillic_search_rev. by apply cyrillic_search_lstrip.
Qed.

Lemma cyrillic_search_truthy s :
  cyrillic_search s = true -> truthy s = true.
Proof. by destruct s. Qed.

End StringFacts.

(* ===================================================================== *)
(** * The condition classifier                                            *)
(* ===================================================================== *)

(** Literals are compared by evaluation ([vm_compute]), never by
    unification. *)
Opaque py.

Section Classifier.

Import Run.

Example categorize_sunny : _categorize_weather (py "晴れ") = py "солнечно".
Proof. vm_compute. reflexivity. Qed.

Example categorize_sunny_then_cloudy :
  _categorize_weather (py "晴れ時々くもり") = py "солнечно, временами облачно".
Proof. vm_compute. reflexivity. Qed.

Example categorize_kanji_cloudy :
  _categorize_weather (py "曇り") = py "облачно".
Proof. vm_compute. reflexivity. Qed.

Example categorize_unknown : _categorize_weather (py "霧") = py "霧".
Proof. vm_compute. reflexivity. Qed.

(** Case analysis on the tests of [_categorize_weather], top to bottom. *)
Ltac by_pattern alt :=
  destruct (contains (py "雷") alt) eqn:Hstorm;
  [| destruct (contains (py "雪") alt) eqn:Hsnow;
  [| destruct (contains (py "晴れ時々くもり") alt) eqn:Hsc;
  [| destruct (contains (py "くもり時々雨") alt) eqn:Hcr;
  [| destruct (contains (py "雨時々やむ") alt) eqn:Hrb;
  [| destruct (contains (py "雨") alt) eqn:Hrain;
  [| destruct (contains (py "晴") alt) eqn:Hsun;
  [| destruct (contains (py "くも") alt) eqn:Hkumo;
  [| destruct (contains (py "曇") alt) eqn:Hkumori ]]]]]]]].

Lemma categorize_refines alt :
  _categorize_weather alt = first_match pattern_list alt.
Proof.
  unfold _categorize_weather, first_match, pattern_list.
  cbn [List.find entry_matches List.existsb fst snd].
  by_pattern alt;
    rewrite ?Hstorm, ?Hsnow, ?Hsc, ?Hcr, ?Hrb, ?Hrain, ?Hsun, ?Hkumo, ?Hkumori;
    reflexivity.
Qed.

(** The classifier returns its input or a phrase that it classifies as
    itself: no phrase contains a pattern. *)
Lemma categorize_cases alt :
  exists c, _categorize_weather alt = c /\
            (c = alt \/ _categorize_weather c = c).
Proof.
  unfold _categorize_weather at 1.
  by_pattern alt; cbn [orb]; eexists; (split; [reflexivity |]);
    first [ left; reflexivity | right; vm_compute; reflexivity ].
Qed.

(** Distinct phrases are told apart by evaluation. *)
Ltac phrases_differ :=
  let H := fresh in intros H; vm_compute in H; discriminate H.

Lemma compound_before_simple alt c :
  c ∈ compound_patterns -> contains c alt = true ->
  _categorize_weather alt ∉ simple_categories.
Proof.
  unfold compound_patterns, simple_categories, _categorize_weather.
  intros Hc Hin. rewrite !not_elem_of_cons.
  repeat (apply elem_of_cons in Hc as [-> | Hc]);
    [ .. | by apply elem_of_nil in Hc ];
    by_pattern alt; try congruence;
    (repeat split; [phrases_differ .. | apply not_elem_of_nil]).
Qed.

(** First match wins: an entry that matches, with no entry before it
    that does, decides. *)
Lemma first_match_wins alt before e after :
  List.forallb (fun e' => negb (entry_matches alt e')) before = true ->
  entry_matches alt e = true ->
  first_match (before ++ e :: after) alt = snd e.
Proof.
  intros Hbefore He. unfold first_match.
  induction before as [|e' before IH]; simpl in *.
  - by rewrite He.
  - apply andb_true_iff in Hbefore as [He' Hbefore].
    apply negb_true_iff in He'. rewrite He'. by apply IH.
Qed.

(** An input with a compound pattern is classified by one of the first
    five entries of the list. *)
Lemma compound_among_first_five alt c :
  c ∈ compound_patterns -> contains c alt = true ->
  _categorize_weather alt ∈
    [py "гроза"; py "снег"; py "солнечно, временами облачно";
     py "облачно, временами дождь"; py "дождь с прояснениями"].
Proof.
  unfold compound_patterns, _categorize_weather.
  intros Hc Hin.
  repeat (apply elem_of_cons in Hc as [-> | Hc]);
    [ .. | by apply elem_of_nil in Hc ];
    by_pattern alt; try congruence;
    match goal with |- ?P => apply (bool_decide_unpack P) end;
    vm_compute; exact I.
Qed.

(** C8 (amended). [_categorize_weather] is the first-match-wins search
    of the pattern list storm, snow, the three compound transitions,
    rain, sunny, cloudy, in that order: the first entry of the list that
    matches decides, and the input is returned when no entry matches.
    An input that contains a compound pattern is never given the phrase
    of a simple entry (rain, sunny, cloudy): it is given the phrase of
    storm, of snow or of a compound, and that of the compound itself
    unless an earlier entry of the list matches as well. So an input
    containing "くもり時々雨" does contain the rain pattern "雨", and
    unless it also contains "雷", "雪" or "晴れ時々くもり" it is classified
    as the compound "облачно, временами дождь", not as rain. *)
Theorem categorize_ordered_first_match :
  (forall alt, _categorize_weather alt = first_match pattern_list alt) /\
  List.map snd pattern_list =
    [py "гроза"; py "снег"; py "солнечно, временами облачно";
     py "облачно, временами дождь"; py "дождь с прояснениями";
     py "дождь"; py "солнечно"; py "облачно"] /\
  (forall alt before e after,
     pattern_list = before ++ e :: after ->
     List.forallb (fun e' => negb (entry_matches alt e')) before = true ->
     entry_matches alt e = true ->
     _categorize_weather alt = snd e) /\
  (forall alt,
     List.forallb (fun e => negb (entry_matches alt e)) pattern_list = true ->
     _categorize_weather alt = alt) /\
  (forall alt c,
     c ∈ compound_patterns -> contains c alt = true ->
     (_categorize_weather alt ∉ simple_categories) /\
     (_categorize_weather alt ∈
        [py "гроза"; py "снег"; py "солнечно, временами облачно";
         py "облачно, временами дождь"; py "дождь с прояснениями"])) /\
  (forall alt,
     contains (py "くもり時々雨") alt = true ->
     contains (py "雨") alt = true /\
     (contains (py "雷") alt = false ->
      contains (py "雪") alt = false ->
      contains (py "晴れ時々くもり") alt = false ->
      _categorize_weather alt = py "облачно, временами дождь")).
Proof.
  split; [exact categorize_refines |].
  split; [reflexivity |].
  split; [| split; [| split]].
  - intros alt before e after Hlist Hbefore He.
    rewrite categorize_refines, Hlist. by apply first_match_wins.
  - intros alt Hnone. rewrite categorize_refines. unfold first_match.
    destruct (List.find _ _) as [e|] eqn:Hfind; [| done].
    apply find_some in Hfind as [Hin Hm].
    rewrite forallb_forall in Hnone. apply Hnone in Hin.
    rewrite Hm in Hin. discriminate.
  - intros alt c Hc Hin.
    split; [by apply (compound_before_simple alt c)
           | by apply (compound_among_first_five alt c)].
  - intros alt Hin. split.
    + eapply contains_trans; [| exact Hin]. vm_compute. reflexivity.
    + intros Hstorm Hsnow Hsc. unfold _categorize_weather.
      by rewrite Hstorm, Hsnow, Hsc, Hin.
Qed.

(** Instance of C8 (amended) at the input "くもり時々雨のち晴れ", which
    contains the compound pattern and the simple patterns for rain,
    sunny and cloudy. *)
Lemma categorize_ordered_first_match_witness :
  contains (py "雨") (py "くもり時々雨のち晴れ") = true /\
  _categorize_weather (py "くもり時々雨のち晴れ") = py "облачно, временами дождь".
Proof.
  destruct categorize_ordered_first_match as (_ & _ & _ & _ & _ & H).
  destruct (H (py "くもり時々雨のち晴れ")) as [Hrain Hcat];
    [vm_compute; reflexivity |].
  split; [exact Hrain | apply Hcat; vm_compute; reflexivity].
Defined.

(** C8 as stated fails when an earlier entry of the list matches as
    well: these inputs contain a compound pattern and are classified as
    storm and as snow, not as the compound. *)
Lemma compound_overridden_by_earlier_entry :
  contains (py "くもり時々雨") (py "雷くもり時々雨") = true /\
  _categorize_weather (py "雷くもり時々雨") = py "гроза" /\
  _categorize_weather (py "雷くもり時々雨") <> py "облачно, временами дождь" /\
  contains (py "雨時々やむ") (py "雪か雨時々やむ") = true /\
  _categorize_weather (py "雪か雨時々やむ") = py "снег" /\
  _categorize_weather (py "雪か雨時々やむ") <> py "дождь с прояснениями".
Proof.
  split; [vm_compute; reflexivity |].
  split; [vm_compute; reflexivity |].
  split; [phrases_differ |].
  split; [vm_compute; reflexivity |].
  split; [vm_compute; reflexivity |].
  phrases_differ.
Qed.

(** C9. Classification is idempotent: classifying the output of the
    classifier gives that output back, for every input. The canonical
    phrases contain none of the patterns, so they fall through
    unchanged. *)
Theorem categorize_idempotent :
  (forall alt,
     _categorize_weather (_categorize_weather alt) = _categorize_weather alt) /\
  Forall (fun c =>
            List.forallb (fun e => negb (entry_matches c e)) pattern_list = true
            /\ _categorize_weather c = c)
         (List.map snd pattern_list).
Proof.
  split.
  - intros alt. destruct (categorize_cases alt) as (c & Hc & [-> | Hfix]).
    + by rewrite Hc.
    + by rewrite Hc.
  - cbn [List.map snd pattern_list].
    repeat constructor; vm_compute; reflexivity.
Qed.

End Classifier.

(* ===================================================================== *)
(** * The name translator                                                 *)
(* ===================================================================== *)

Section Translator.

Import Ai.

Variable chat_endpoint : nat -> list pystr -> chat_result.
Variable json_loads : pystr -> loads_result.

Abbreviation retry_loop := (retry_loop chat_endpoint json_loads).
Abbreviation translate := (translate chat_endpoint json_loads).
Abbreviation answered := (answered chat_endpoint json_loads).
Abbreviation answered_at := (answered_at chat_endpoint json_loads).
Abbreviation answered_by := (answered_by json_loads).
Abbreviation unusable := (unusable json_loads).
Abbreviation fails_with := (fails_with chat_endpoint json_loads).
Abbreviation goes_through := (goes_through chat_endpoint json_loads).

Implicit Types (cache good result d : gmap pystr pystr).
Implicit Types (missing bad jp_terms : list pystr) (s : state).

(** ** The returned dictionary *)

Lemma lookup_all_lookup jp_terms cache t :
  lookup_all jp_terms cache !! t =
    if decide (t ∈ jp_terms) then Some (default t (cache !! t)) else None.
Proof.
  unfold lookup_all.
  assert (Hgen : forall d,
    foldl (fun d t => <[t := default t (cache !! t)]> d) d jp_terms !! t =
      if decide (t ∈ jp_terms) then Some (default t (cache !! t)) else d !! t).
  { induction jp_terms as [|u l IH]; intros d; simpl.
    - destruct (decide (t ∈ [])) as [H|_]; [by apply elem_of_nil in H | done].
    - rewrite IH.
      destruct (decide (t ∈ l)) as [Hl|Hl], (decide (t ∈ u :: l)) as [Hul|Hul];
        try done.
      + exfalso. apply Hul. by apply list_elem_of_further.
      + apply elem_of_cons in Hul as [-> | ?]; [| done].
        by rewrite lookup_insert_eq.
      + rewrite lookup_insert_ne; [done |]. intros ->. apply Hul.
        apply list_elem_of_here. }
  rewrite Hgen. by case_decide.
Qed.

Lemma lookup_all_dom jp_terms cache :
  dom (lookup_all jp_terms cache) = list_to_set jp_terms.
Proof.
  apply set_eq. intros t.
  rewrite elem_of_dom, lookup_all_lookup, elem_of_list_to_set.
  destruct (decide (t ∈ jp_terms)) as [Hin|Hin]; split; intros H'.
  - done.
  - by eexists.
  - by destruct H'.
  - done.
Qed.

(** ** One round: validation of the candidates *)

Lemma validate_good items good bad good' bad' :
  validate items good bad = Return (good', bad') ->
  forall jp v, good' !! jp = Some v ->
    good !! jp = Some v \/ accepted_in items jp v.
Proof.
  revert good bad. induction items as [|[k ru] items IH]; intros good bad; simpl.
  - intros [= <- <-] jp v Hv. by left.
  - intros Hval jp v Hv.
    assert (Hrest : forall g b, validate items g b = Return (good', bad') ->
              (forall w, g !! jp = Some w -> good !! jp = Some w
                   \/ accepted_in ((k, ru) :: items) jp w) ->
              good !! jp = Some v \/ accepted_in ((k, ru) :: items) jp v).
    { intros g b Hg Hw. destruct (IH g b Hg jp v Hv) as [Hl | (s' & Hin & Hc & ->)].
      - by apply Hw.
      - right. exists s'. split; [by apply list_elem_of_further | done]. }
    destruct (json_truthy ru) eqn:Htruthy.
    + destruct ru as [| | |s'| |]; try discriminate Hval.
      destruct (cyrillic_search s') eqn:Hcyr.
      * eapply Hrest; [exact Hval |]. intros w Hw.
        destruct (decide (k = jp)) as [-> | Hne].
        -- rewrite lookup_insert_eq in Hw. injection Hw as <-.
           right. exists s'. split; [apply list_elem_of_here | done].
        -- rewrite lookup_insert_ne in Hw by done. by left.
      * eapply Hrest; [exact Hval |]. intros w Hw. by left.
    + eapply Hrest; [exact Hval |]. intros w Hw. by left.
Qed.

Lemma validate_returns items good bad :
  well_typed items -> exists good' bad', validate items good bad = Return (good', bad').
Proof.
  intros Hwt. revert good bad.
  induction Hwt as [|[k ru] items Hru _ IH]; intros good bad; simpl.
  - by eexists _, _.
  - destruct (json_truthy ru) eqn:Htruthy; [| apply IH].
    destruct (Hru Htruthy) as [s' Hs]. simpl in Hs. subst ru.
    destruct (cyrillic_search s'); apply IH.
Qed.

(** [validate] raises only [TypeError], on a value that is truthy and
    not a string. *)
Lemma validate_raises items good bad e :
  validate items good bad = Raise e ->
  e = TypeError /\
  exists jp ru, (jp, ru) ∈ items /\ json_truthy ru = true /\
                forall str, ru <> JStr str.
Proof.
  revert good bad.
  induction items as [|[k v] items IH]; intros good bad; simpl; [done |].
  assert (Hrest : forall g b, validate items g b = Raise e ->
            e = TypeError /\
            exists jp ru, (jp, ru) ∈ (k, v) :: items /\ json_truthy ru = true /\
                          forall str, ru <> JStr str).
  { intros g b Hv. destruct (IH g b Hv) as (-> & jp & ru & Hin & Ht & Hns).
    split; [done |]. exists jp, ru.
    split; [by apply list_elem_of_further | done]. }
  destruct (json_truthy v) eqn:Htruthy; [| apply Hrest].
  destruct v as [|b0|n|str0|l|l];
    try (intros [= <-]; split; [done |]; eexists k, _;
         split; [apply list_elem_of_here |]; split; [exact Htruthy | done]).
  destruct (cyrillic_search str0); apply Hrest.
Qed.

(** A key with an accepted candidate is a key of [good]. *)
Lemma validate_accepts items good bad good' bad' jp :
  validate items good bad = Return (good', bad') ->
  is_Some (good !! jp) \/ (exists v, accepted_in items jp v) ->
  is_Some (good' !! jp).
Proof.
  revert good bad.
  induction items as [|[k ru] items IH]; intros good bad; simpl.
  - intros [= <- <-] [H | (v & ru & Hin & _)]; [done |].
    by apply elem_of_nil in Hin.
  - intros Hval Hjp.
    assert (Hrest : forall g b, validate items g b = Return (good', bad') ->
              (is_Some (good !! jp) -> is_Some (g !! jp)) ->
              ((k, ru) = (jp, ru) -> json_truthy ru = true ->
               (forall str, ru = JStr str -> cyrillic_search str = true ->
                            is_Some (g !! jp))) ->
              is_Some (good' !! jp)).
    { intros g b Hg Hkeep Hhere. apply (IH g b Hg).
      destruct Hjp as [H | (v & ru' & Hin & Hc & _)]; [left; by apply Hkeep |].
      apply elem_of_cons in Hin as [[= <- <-] | Hin].
      - left. eapply Hhere; [done | by apply cyrillic_search_truthy | done..].
      - right. exists (strip ru'), ru'. done. }
    destruct (json_truthy ru) eqn:Htruthy.
    + destruct ru as [| | |str0| |]; try discriminate Hval.
      destruct (cyrillic_search str0) eqn:Hcyr.
      * eapply Hrest; [exact Hval | |].
        -- intros [w Hw]. destruct (decide (k = jp)) as [-> | Hne].
           ++ rewrite lookup_insert_eq. by eexists.
           ++ rewrite lookup_insert_ne by done. by exists w.
        -- intros [= ->] _ str _ _. rewrite lookup_insert_eq. by eexists.
      * eapply Hrest; [exact Hval | done |].
        intros _ _ str [= <-] Hc. congruence.
    + eapply Hrest; [exact Hval | done |]. intros _ Ht. congruence.
Qed.

(** ** The retry loop *)

Lemma retry_loop_step rounds t missing result s :
  retry_loop (S rounds) (t :: missing) result s =
    let s1 := logged s (t :: missing) in
    match chat_endpoint (length (chat_calls s)) (t :: missing) with
    | ChatRaises e => (Raise e, s1)
    | ChatReturns resp =>
      if (0 <=? find 123 resp)%Z && (find 123 resp <? rfind 125 resp)%Z then
        match json_loads (slice resp (find 123 resp) (rfind 125 resp + 1)) with
        | Parsed data =>
          match validate data ∅ [] with
          | Return (good, bad) => retry_loop rounds bad (good ∪ result) s1
          | Raise e => (Raise e, s1)
          end
        | JSONDecodeError => retry_loop rounds (t :: missing) result s1
        | LoadsRaises e => (Raise e, s1)
        end
      else retry_loop rounds (t :: missing) result s1
    end.
Proof.
  cbn [Ai.retry_loop]. unfold bind at 1, chat.
  destruct (chat_endpoint _ _) as [e|resp]; [done |].
  destruct (_ && _); [| done].
  destruct (json_loads _) as [data| |e]; [| done | done].
  by destruct (validate data ∅ []) as [[good bad]|e].
Qed.

Lemma retry_loop_stop rounds missing result s :
  rounds = O \/ missing = [] ->
  retry_loop rounds missing result s = (Return (missing, result), s).
Proof. intros [-> | ->]; [by destruct missing | by destruct rounds]. Qed.

(** The loop only appends to the record of calls, makes at most [rounds]
    of them, leaves the cache alone, and a call that raises is the last
    one: its exception is the outcome of the loop. *)
Lemma retry_loop_calls rounds missing result s r s' :
  retry_loop rounds missing result s = (r, s') ->
  CITY_TRANSLATIONS s' = CITY_TRANSLATIONS s /\
  exists calls,
    chat_calls s' = chat_calls s ++ calls /\
    length calls <= rounds /\
    forall i m e,
      calls !! i = Some m ->
      chat_endpoint (length (chat_calls s) + i) m = ChatRaises e ->
      r = Raise e /\ length calls = S i.
Proof.
  revert missing result s.
  induction rounds as [|rounds IH]; intros missing result s.
  { rewrite retry_loop_stop by auto. intros [= <- <-].
    split; [done |]. exists []. rewrite app_nil_r.
    split; [done |]. split; [simpl; lia |]. by intros i m e Hm. }
  destruct missing as [|t missing].
  { rewrite retry_loop_stop by auto. intros [= <- <-].
    split; [done |]. exists []. rewrite app_nil_r.
    split; [done |]. split; [simpl; lia |]. by intros i m e Hm. }
  rewrite retry_loop_step. cbv zeta.
  set (s1 := logged s (t :: missing)).
  assert (Hlast :
            (forall e, chat_endpoint (length (chat_calls s)) (t :: missing)
                       = ChatRaises e -> r = Raise e) ->
            CITY_TRANSLATIONS s1 = CITY_TRANSLATIONS s /\
            exists calls, chat_calls s1 = chat_calls s ++ calls /\
              length calls <= S rounds /\
              forall i m e, calls !! i = Some m ->
                chat_endpoint (length (chat_calls s) + i) m = ChatRaises e ->
                r = Raise e /\ length calls = S i).
  { intros Hr. split; [done |]. exists [t :: missing].
    split; [done |]. split; [simpl; lia |].
    intros [|i] m e Hm He; [| done].
    injection Hm as <-. rewrite Nat.add_0_r in He. split; [by apply Hr | done]. }
  assert (Hnext : forall missing' result',
            (forall e, chat_endpoint (length (chat_calls s)) (t :: missing) <> ChatRaises e) ->
            retry_loop rounds missing' result' s1 = (r, s') ->
            CITY_TRANSLATIONS s' = CITY_TRANSLATIONS s /\
            exists calls, chat_calls s' = chat_calls s ++ calls /\
              length calls <= S rounds /\
              forall i m e, calls !! i = Some m ->
                chat_endpoint (length (chat_calls s) + i) m = ChatRaises e ->
                r = Raise e /\ length calls = S i).
  { intros missing' result' Hret Hloop.
    destruct (IH _ _ _ Hloop) as (Hcache & calls & Hcalls & Hlen & Hraise).
    split; [done |]. exists ((t :: missing) :: calls).
    split; [by rewrite Hcalls; unfold s1, logged; simpl; rewrite <- app_assoc |].
    split; [simpl; lia |].
    intros [|i] m e Hm He.
    - injection Hm as <-. rewrite Nat.add_0_r in He. by apply Hret in He.
    - simpl in Hm. destruct (Hraise i m e Hm) as [-> Hl].
      + unfold s1, logged. simpl. rewrite length_app. simpl.
        by replace (length (chat_calls s) + 1 + i) with (length (chat_calls s) + S i) by lia.
      + split; [done | simpl; lia]. }
  destruct (chat_endpoint _ _) as [e0|resp] eqn:Hep.
  { intros [= <- <-]. apply Hlast. congruence. }
  destruct (_ && _).
  2: { apply Hnext. congruence. }
  destruct (json_loads _) as [data| |e0].
  2: { apply Hnext. congruence. }
  2: { intros [= <- <-]. apply Hlast. congruence. }
  destruct (validate data ∅ []) as [[good bad]|e0].
  { apply Hnext. congruence. }
  intros [= <- <-]. apply Hlast. congruence.
Qed.

Lemma answered_later s s1 s' jp v :
  length (chat_calls s) <= length (chat_calls s1) ->
  answered s1 s' jp v -> answered s s' jp v.
Proof.
  intros Hlen (n & m & resp & Hn & Hcall & Hresp & Hby).
  exists n, m, resp. split; [lia |]. split; [exact Hcall |]. split; assumption.
Qed.

(** Whatever the loop adds to [result] is a candidate accepted from the
    response to one of its calls. *)
Lemma retry_loop_result rounds missing result s missing' result' s' :
  retry_loop rounds missing result s = (Return (missing', result'), s') ->
  forall jp v, result' !! jp = Some v ->
    result !! jp = Some v \/ answered s s' jp v.
Proof.
  revert missing result s.
  induction rounds as [|rounds IH]; intros missing result s.
  { rewrite retry_loop_stop by auto. intros [= <- <- <-]. by left. }
  destruct missing as [|t missing].
  { rewrite retry_loop_stop by auto. intros [= <- <- <-]. by left. }
  rewrite retry_loop_step. cbv zeta.
  set (s1 := logged s (t :: missing)).
  assert (Hlen : length (chat_calls s) <= length (chat_calls s1)).
  { unfold s1, logged. simpl. rewrite length_app. lia. }
  assert (Hskip : retry_loop rounds (t :: missing) result s1
                    = (Return (missing', result'), s') ->
            forall jp v, result' !! jp = Some v ->
              result !! jp = Some v \/ answered s s' jp v).
  { intros Hloop jp v Hv.
    destruct (IH _ _ _ Hloop jp v Hv) as [Hu | Hans]; [by left |].
    right. by apply (answered_later s s1). }
  destruct (chat_endpoint _ _) as [e0|resp] eqn:Hep; [done |].
  destruct (_ && _) eqn:Hguard; [| exact Hskip].
  destruct (json_loads _) as [data| |e0] eqn:Hdata; [| exact Hskip | done].
  destruct (validate data ∅ []) as [[good bad]|e0] eqn:Hval; [| done].
  intros Hloop jp v Hv.
  destruct (IH _ _ _ Hloop jp v Hv) as [Hu | Hans].
  2: { right. by apply (answered_later s s1). }
  apply lookup_union_Some_raw in Hu as [Hgood | [_ Hres]]; [| by left].
  right.
  destruct (validate_good _ _ _ _ _ Hval jp v Hgood) as [He | Hin]; [done |].
  destruct (retry_loop_calls _ _ _ _ _ _ Hloop) as (_ & calls & Hcalls & _).
  exists (length (chat_calls s)), (t :: missing), resp.
  split; [done |]. split; [| split; [done |]].
  - rewrite Hcalls. unfold s1, logged. simpl. rewrite <- app_assoc.
    by apply list_lookup_middle.
  - split; [done |]. by exists data.
Qed.

(** An exception of the loop comes from the last call it made. *)
Lemma retry_loop_raise rounds missing result s e s' :
  retry_loop rounds missing result s = (Raise e, s') ->
  exists calls last,
    chat_calls s' = chat_calls s ++ calls ++ [last] /\
    fails_with (length (chat_calls s) + length calls) last e.
Proof.
  revert missing result s.
  induction rounds as [|rounds IH]; intros missing result s.
  { by rewrite retry_loop_stop by auto. }
  destruct missing as [|t missing].
  { by rewrite retry_loop_stop by auto. }
  rewrite retry_loop_step. cbv zeta.
  set (s1 := logged s (t :: missing)).
  assert (Hnext : forall missing' result',
            retry_loop rounds missing' result' s1 = (Raise e, s') ->
            exists calls last,
              chat_calls s' = chat_calls s ++ calls ++ [last] /\
              fails_with (length (chat_calls s) + length calls) last e).
  { intros missing' result' Hloop.
    destruct (IH _ _ _ Hloop) as (calls & last & Hcalls & Hlast).
    exists ((t :: missing) :: calls), last. split.
    - rewrite Hcalls. unfold s1, logged. simpl. by rewrite <- app_assoc.
    - unfold s1, logged in Hlast. simpl in Hlast.
      rewrite length_app in Hlast. simpl in Hlast. simpl.
      by replace (length (chat_calls s) + S (length calls))
        with (length (chat_calls s) + 1 + length calls) by lia. }
  assert (Hhere : fails_with (length (chat_calls s)) (t :: missing) e ->
            exists calls last,
              chat_calls s1 = chat_calls s ++ calls ++ [last] /\
              fails_with (length (chat_calls s) + length calls) last e).
  { intros Hf. exists [], (t :: missing). simpl. by rewrite Nat.add_0_r. }
  destruct (chat_endpoint _ _) as [e0|resp] eqn:Hep.
  { intros [= <- <-]. apply Hhere. by left. }
  destruct (_ && _) eqn:Hguard; [| apply Hnext].
  destruct (json_loads _) as [data| |e0] eqn:Hdata; [| apply Hnext |].
  - destruct (validate data ∅ []) as [[good bad]|e0] eqn:Hval; [apply Hnext |].
    intros [= <- <-]. apply Hhere. right. exists resp.
    split; [done |]. split; [done |]. right.
    destruct (validate_raises _ _ _ _ Hval) as (-> & jp & ru & Hin & Ht & Hns).
    by exists data, jp, ru.
  - intros [= <- <-]. apply Hhere. right. exists resp.
    split; [done |]. split; [done |]. by left.
Qed.

(** A call that goes through does not make [translate] raise. *)
Lemma goes_through_not_fails n missing e :
  goes_through n missing -> ~ fails_with n missing e.
Proof.
  intros (resp & Hresp & Hok) [Hraise | (resp' & Hresp' & Hguard & Hcause)].
  - congruence.
  - assert (resp' = resp) as -> by congruence.
    specialize (Hok Hguard).
    destruct Hcause as [Hloads | (data & jp & ru & Hdata & Hin & Ht & Hns & _)].
    + by rewrite Hloads in Hok.
    + rewrite Hdata in Hok. unfold well_typed in Hok.
      rewrite Forall_forall in Hok.
      destruct (Hok _ Hin Ht) as [str Hstr]. by apply (Hns str).
Qed.

(** Which response of the loop, if any, gave a key of [result] its
    value: the last one that carries the key with an accepted
    candidate. *)
Lemma retry_loop_last_answer rounds missing result s missing' result' s' jp :
  retry_loop rounds missing result s = (Return (missing', result'), s') ->
  (result' !! jp = result !! jp /\
   forall n w, length (chat_calls s) <= n -> ~ answered_at s' n jp w) \/
  exists n v',
    result' !! jp = Some v' /\
    length (chat_calls s) <= n /\ answered_at s' n jp v' /\
    forall n' w, n < n' -> ~ answered_at s' n' jp w.
Proof.
  revert missing result s.
  induction rounds as [|rounds IH]; intros missing result s.
  { rewrite retry_loop_stop by auto. intros [= <- <- <-]. left.
    split; [done |]. intros n w Hn (m & resp & Hm%lookup_lt_Some & _). lia. }
  destruct missing as [|t missing].
  { rewrite retry_loop_stop by auto. intros [= <- <- <-]. left.
    split; [done |]. intros n w Hn (m & resp & Hm%lookup_lt_Some & _). lia. }
  rewrite retry_loop_step. cbv zeta.
  set (s1 := logged s (t :: missing)).
  assert (Hlen : length (chat_calls s1) = S (length (chat_calls s))).
  { unfold s1, logged. simpl. rewrite length_app. simpl. lia. }
  assert (Hcall : forall missing0 result0,
            retry_loop rounds missing0 result0 s1
              = (Return (missing', result'), s') ->
            chat_calls s' !! length (chat_calls s) = Some (t :: missing)).
  { intros missing0 result0 Hloop.
    destruct (retry_loop_calls _ _ _ _ _ _ Hloop) as (_ & calls & -> & _).
    unfold s1, logged. simpl. rewrite <- app_assoc.
    by apply list_lookup_middle. }
  assert (Hskip : forall resp,
            chat_endpoint (length (chat_calls s)) (t :: missing)
              = ChatReturns resp ->
            (forall w, ~ answered_by resp jp w) ->
            retry_loop rounds (t :: missing) result s1
              = (Return (missing', result'), s') ->
            (result' !! jp = result !! jp /\
             forall n w, length (chat_calls s) <= n -> ~ answered_at s' n jp w)
            \/ exists n v',
                 result' !! jp = Some v' /\
                 length (chat_calls s) <= n /\ answered_at s' n jp v' /\
                 forall n' w, n < n' -> ~ answered_at s' n' jp w).
  { intros resp Hresp Hnone Hloop.
    destruct (IH _ _ _ Hloop) as [[Heq Hno] | (n & v' & Hv' & Hn & Hat & Hlast)].
    - left. split; [done |]. intros n w Hn Hat.
      destruct (decide (n = length (chat_calls s))) as [-> | Hne].
      + destruct Hat as (m & resp' & Hm & Hresp' & Hby).
        rewrite (Hcall _ _ Hloop) in Hm. injection Hm as <-.
        assert (resp' = resp) as -> by congruence. by apply (Hnone w).
      + apply (Hno n w); [lia | done].
    - right. exists n, v'. split; [done |]. split; [lia | done]. }
  destruct (chat_endpoint _ _) as [e0|resp] eqn:Hep; [done |].
  destruct (_ && _) eqn:Hguard.
  2: { apply (Hskip resp eq_refl). intros w [Hg _]. congruence. }
  destruct (json_loads _) as [data| |e0] eqn:Hdata; [| | done].
  2: { apply (Hskip resp eq_refl). intros w (_ & data & Hd & _). congruence. }
  destruct (validate data ∅ []) as [[good bad]|e0] eqn:Hval; [| done].
  intros Hloop.
  assert (Hhere : forall w, answered_by resp jp w -> is_Some (good !! jp)).
  { intros w (_ & data' & Hd & Hacc).
    assert (data' = data) as -> by congruence.
    apply (validate_accepts _ _ _ _ _ jp Hval). right. by exists w. }
  destruct (IH _ _ _ Hloop) as [[Heq Hno] | (n & v' & Hv' & Hn & Hat & Hlast)].
  2: { right. exists n, v'. split; [done |]. split; [lia | done]. }
  destruct (good !! jp) as [v'|] eqn:Hgood.
  - right. exists (length (chat_calls s)), v'.
    split; [by rewrite Heq; apply lookup_union_Some_l |].
    split; [done |]. split.
    + exists (t :: missing), resp. split; [by apply (Hcall _ _ Hloop) |].
      split; [done |]. split; [done |]. exists data. split; [done |].
      destruct (validate_good _ _ _ _ _ Hval jp v' Hgood) as [He | Hacc];
        [done | exact Hacc].
    + intros n' w Hn'. apply Hno. lia.
  - left. split; [by rewrite Heq, lookup_union_r |].
    intros n w Hn Hat.
    destruct (decide (n = length (chat_calls s))) as [-> | Hne].
    + destruct Hat as (m & resp' & Hm & Hresp' & Hby).
      rewrite (Hcall _ _ Hloop) in Hm. injection Hm as <-.
      assert (resp' = resp) as -> by congruence.
      by destruct (Hhere w Hby).
    + apply (Hno n w); [lia | done].
Qed.

(** ** [translate] *)

Lemma translate_unfold jp_terms max_retries s :
  translate jp_terms max_retries s =
    match to_do_of jp_terms (CITY_TRANSLATIONS s) with
    | [] => (Return (lookup_all jp_terms (CITY_TRANSLATIONS s)), s)
    | to_do =>
      match retry_loop (Z.to_nat (max_retries + 1)) to_do ∅ s with
      | (Return (missing, result), s1) =>
          (Return (lookup_all jp_terms (result ∪ CITY_TRANSLATIONS s1)),
           mkState (result ∪ CITY_TRANSLATIONS s1) (chat_calls s1))
      | (Raise e, s1) => (Raise e, s1)
      end
    end.
Proof.
  unfold Ai.translate, bind, get, ret, modify. simpl.
  destruct (to_do_of _ _) as [|t to_do]; [done |].
  by destruct (retry_loop _ _ _ s) as [[[missing result]|e] s1].
Qed.

(** What [translate] returns is read from the cache it leaves behind. *)
Lemma translate_returns_lookup jp_terms max_retries s m s' :
  translate jp_terms max_retries s = (Return m, s') ->
  m = lookup_all jp_terms (CITY_TRANSLATIONS s').
Proof.
  rewrite translate_unfold.
  destruct (to_do_of _ _) as [|t to_do]; [by intros [= <- <-] |].
  destruct (retry_loop _ _ _ s) as [[[missing result]|e] s1]; [| done].
  by intros [= <- <-].
Qed.

(** Every entry of the cache after a call was there before or is a
    candidate accepted from a response of that call. *)
Lemma translate_cache jp_terms max_retries s jp v :
  CITY_TRANSLATIONS (snd (translate jp_terms max_retries s)) !! jp = Some v ->
  CITY_TRANSLATIONS s !! jp = Some v \/
  answered s (snd (translate jp_terms max_retries s)) jp v.
Proof.
  rewrite translate_unfold.
  destruct (to_do_of _ _) as [|t to_do]; [by left |].
  destruct (retry_loop _ _ _ s) as [[[missing result]|e] s1] eqn:Hloop; simpl.
  - destruct (retry_loop_calls _ _ _ _ _ _ Hloop) as [-> _].
    intros [Hres | [_ Hold]]%lookup_union_Some_raw; [| by left].
    destruct (retry_loop_result _ _ _ _ _ _ _ Hloop jp v Hres)
      as [He | (n & m & resp & Hn & Hcall & Hresp & Hby)]; [done |].
    right. by exists n, m, resp.
  - destruct (retry_loop_calls _ _ _ _ _ _ Hloop) as [-> _]. by left.
Qed.

(** No call removes a key. *)
Lemma translate_cache_keeps_keys jp_terms max_retries s jp :
  is_Some (CITY_TRANSLATIONS s !! jp) ->
  is_Some (CITY_TRANSLATIONS (snd (translate jp_terms max_retries s)) !! jp).
Proof.
  rewrite translate_unfold. intros [v Hv].
  destruct (to_do_of _ _) as [|t to_do]; [by exists v |].
  destruct (retry_loop _ _ _ s) as [[[missing result]|e] s1] eqn:Hloop; simpl;
    destruct (retry_loop_calls _ _ _ _ _ _ Hloop) as [Hc _]; rewrite ?Hc.
  - destruct (result !! jp) as [w|] eqn:Hw.
    + exists w. by apply lookup_union_Some_l.
    + exists v. by rewrite lookup_union_r.
  - by exists v.
Qed.

(** C1 (amended). Whenever [translate] returns, the key set of the
    dictionary it returns is the set of the input terms; each input term
    maps to its entry in the cache as the call leaves it, and to itself
    when it has none (the terms still unresolved after the retry
    rounds). It does return when every call of [chat] it makes goes
    through: the call does not raise, [json.loads] raises nothing but
    [JSONDecodeError] on the object text of the response, and every
    truthy value of the parsed object is a string. *)
Theorem translate_total_when_chat_returns jp_terms max_retries s :
  (forall m s',
     translate jp_terms max_retries s = (Return m, s') ->
     dom m = list_to_set jp_terms /\
     (forall t, t ∈ jp_terms ->
        m !! t = Some (default t (CITY_TRANSLATIONS s' !! t))) /\
     (forall t, t ∈ jp_terms ->
        CITY_TRANSLATIONS s' !! t = None -> m !! t = Some t)) /\
  ((forall n missing,
      length (chat_calls s) <= n ->
      chat_calls (snd (translate jp_terms max_retries s)) !! n = Some missing ->
      goes_through n missing) ->
   exists m s', translate jp_terms max_retries s = (Return m, s')).
Proof.
  split.
  - intros m s' Hm. apply translate_returns_lookup in Hm as ->.
    split; [apply lookup_all_dom |].
    split; intros t Ht; rewrite lookup_all_lookup;
      (destruct (decide (t ∈ jp_terms)); [| done]).
    + done.
    + by intros ->.
  - rewrite translate_unfold.
    destruct (to_do_of _ _) as [|t to_do]; [by eexists _, _ |].
    destruct (retry_loop _ _ _ s) as [[[missing result]|e] s1] eqn:Hloop;
      [by eexists _, _ |].
    cbn [snd]. intros Hcalls. exfalso.
    destruct (retry_loop_raise _ _ _ _ _ _ Hloop)
      as (calls & last & Hrec & Hfails).
    apply (goes_through_not_fails _ _ _
             (Hcalls (length (chat_calls s) + length calls) last
                ltac:(lia)
                ltac:(rewrite Hrec, app_assoc, <- length_app;
                      apply list_lookup_middle; done))
             Hfails).
Qed.

(** C2 (amended). An error of the chat call is not caught by
    [translate]: the call of [chat] that raises is the last one made,
    [translate] raises the same exception, and the cache is as before
    the call. What aborts one round only is a response in which no JSON
    object is found or whose object does not parse: the next round asks
    for the same terms. *)
Theorem chat_error_propagates :
  (forall jp_terms max_retries s n missing e,
     length (chat_calls s) <= n ->
     chat_calls (snd (translate jp_terms max_retries s)) !! n = Some missing ->
     chat_endpoint n missing = ChatRaises e ->
     fst (translate jp_terms max_retries s) = Raise e /\
     length (chat_calls (snd (translate jp_terms max_retries s))) = S n /\
     CITY_TRANSLATIONS (snd (translate jp_terms max_retries s))
       = CITY_TRANSLATIONS s) /\
  (forall rounds t missing result s resp,
     chat_endpoint (length (chat_calls s)) (t :: missing) = ChatReturns resp ->
     unusable resp ->
     retry_loop (S rounds) (t :: missing) result s =
       retry_loop rounds (t :: missing) result (logged s (t :: missing))).
Proof.
  split.
  - intros jp_terms max_retries s n missing e Hn.
    rewrite translate_unfold.
    destruct (to_do_of _ _) as [|t to_do].
    { simpl. intros Hcall%lookup_lt_Some. lia. }
    destruct (retry_loop _ _ _ s) as [r s1] eqn:Hloop.
    destruct (retry_loop_calls _ _ _ _ _ _ Hloop)
      as (Hcache & calls & Hcalls & _ & Hraise).
    assert (Hsame : chat_calls
              (snd match r with
                   | Return (missing0, result) =>
                       (Return (lookup_all jp_terms (result ∪ CITY_TRANSLATIONS s1)),
                        mkState (result ∪ CITY_TRANSLATIONS s1) (chat_calls s1))
                   | Raise e0 => (Raise e0, s1)
                   end) = chat_calls s1).
    { by destruct r as [[? ?]|?]. }
    rewrite Hsame, Hcalls. intros Hcall He.
    rewrite lookup_app_r in Hcall by done.
    destruct (Hraise _ _ e Hcall) as [-> Hlen].
    { by replace (length (chat_calls s) + (n - length (chat_calls s)))
        with n by lia. }
    simpl. rewrite length_app, Hlen. repeat split; [lia | done].
  - intros rounds t missing result s resp Hresp Hun.
    rewrite retry_loop_step. cbv zeta. rewrite Hresp.
    destruct Hun as [-> | Hnone]; [done |].
    rewrite Hnone. by destruct (_ && _).
Qed.

(** C3 (amended). A key that is in the cache before a call of
    [translate] is in it after the call. It has the same value when the
    call raises, and when no response of the call carries that key with
    a candidate that passes the script check. When the call returns and
    some response of it carries such a candidate for the key, the value
    is the stripped candidate of the last response that does. *)
Theorem cache_entry_kept_or_answered jp_terms max_retries s jp v :
  CITY_TRANSLATIONS s !! jp = Some v ->
  exists v',
    CITY_TRANSLATIONS (snd (translate jp_terms max_retries s)) !! jp = Some v' /\
    (forall e, fst (translate jp_terms max_retries s) = Raise e -> v' = v) /\
    ((forall n w,
        length (chat_calls s) <= n ->
        ~ answered_at (snd (translate jp_terms max_retries s)) n jp w) ->
     v' = v) /\
    (forall m,
       fst (translate jp_terms max_retries s) = Return m ->
       (exists n w,
          length (chat_calls s) <= n /\
          answered_at (snd (translate jp_terms max_retries s)) n jp w) ->
       exists n,
         length (chat_calls s) <= n /\
         answered_at (snd (translate jp_terms max_retries s)) n jp v' /\
         forall n' w,
           n < n' ->
           ~ answered_at (snd (translate jp_terms max_retries s)) n' jp w).
Proof.
  intros Hv. rewrite translate_unfold.
  destruct (to_do_of _ _) as [|t to_do].
  { exists v. cbn [fst snd]. split; [done |]. split; [done |].
    split; [done |].
    intros m _ (n & w & Hn & missing & resp & Hm%lookup_lt_Some & _). lia. }
  destruct (retry_loop _ _ _ s) as [[[missing result]|e] s1] eqn:Hloop;
    cbn [fst snd].
  2: { destruct (retry_loop_calls _ _ _ _ _ _ Hloop) as [Hc _].
       exists v. rewrite Hc. split; [done |]. split; [done |].
       split; [done |]. intros m Hm. discriminate Hm. }
  destruct (retry_loop_calls _ _ _ _ _ _ Hloop) as [Hc _].
  cbn [CITY_TRANSLATIONS chat_calls]. rewrite Hc.
  assert (Hsame : forall n w,
            answered_at (mkState (result ∪ CITY_TRANSLATIONS s) (chat_calls s1))
                        n jp w <-> answered_at s1 n jp w).
  { intros n w. by unfold Ai.answered_at. }
  destruct (retry_loop_last_answer _ _ _ _ _ _ _ jp Hloop)
    as [[Heq Hno] | (n & v' & Hv' & Hn & Hat & Hlast)].
  - rewrite lookup_empty in Heq.
    exists v. split; [by rewrite lookup_union_r |]. split; [done |].
    split; [done |].
    intros m _ (n & w & Hn & Hat). apply Hsame in Hat. by destruct (Hno n w).
  - exists v'. split; [by apply lookup_union_Some_l |].
    split; [intros e He; discriminate He |]. split.
    + intros Hnone. destruct (Hnone n v' Hn). by apply Hsame.
    + intros m _ _. exists n. split; [done |]. split; [by apply Hsame |].
      intros n' w Hn' Hat'. apply Hsame in Hat'. by apply (Hlast n' w).
Qed.

(** An entry of the cache after a call was there before or is the
    stripped form of a candidate that passed the script check. *)
Lemma translate_entry_origin jp_terms max_retries s jp v :
  CITY_TRANSLATIONS (snd (translate jp_terms max_retries s)) !! jp = Some v ->
  CITY_TRANSLATIONS s !! jp = Some v \/
  exists ru, truthy ru = true /\ cyrillic_search ru = true /\ v = strip ru.
Proof.
  intros Hv.
  destruct (translate_cache _ _ _ _ _ Hv)
    as [Hold | (n & m & resp & _ & _ & _ & _ & data & _ & ru & _ & Hcyr & ->)];
    [by left |].
  right. exists ru. by split; [apply cyrillic_search_truthy |].
Qed.

Lemma script_valid_preserved jp_terms max_retries s :
  map_Forall (fun _ v => cyrillic_search v = true) (CITY_TRANSLATIONS s) ->
  map_Forall (fun _ v => cyrillic_search v = true)
             (CITY_TRANSLATIONS (snd (translate jp_terms max_retries s))).
Proof.
  intros Hseed jp v Hv.
  destruct (translate_entry_origin _ _ _ _ _ Hv) as [Hold | (ru & _ & Hcyr & ->)].
  - by apply (Hseed jp).
  - by apply cyrillic_search_strip.
Qed.

(** The invariant holds along any sequence of calls. *)
Lemma session_script_valid requests s :
  map_Forall (fun _ v => cyrillic_search v = true) (CITY_TRANSLATIONS s) ->
  map_Forall (fun _ v => cyrillic_search v = true)
             (CITY_TRANSLATIONS (session chat_endpoint json_loads requests s)).
Proof.
  revert s. induction requests as [|[jp_terms max_retries] requests IH];
    intros s Hs; simpl; [done |].
  by apply IH, script_valid_preserved.
Qed.

(** C4. If every value of the cache holds a Cyrillic letter before a
    call of [translate], then after the call every value is non-empty
    and holds a Cyrillic letter: each entry was there before or is the
    stripped form of a candidate that is truthy and in which the regular
    expression found a Cyrillic letter, so no empty candidate and no
    candidate without a Cyrillic letter is stored. *)
Theorem cache_script_valid jp_terms max_retries s :
  map_Forall (fun _ v => cyrillic_search v = true) (CITY_TRANSLATIONS s) ->
  map_Forall (fun _ v => truthy v = true /\ cyrillic_search v = true)
             (CITY_TRANSLATIONS (snd (translate jp_terms max_retries s))) /\
  (forall jp v,
     CITY_TRANSLATIONS (snd (translate jp_terms max_retries s)) !! jp = Some v ->
     CITY_TRANSLATIONS s !! jp = Some v \/
     exists ru, truthy ru = true /\ cyrillic_search ru = true /\ v = strip ru).
Proof.
  intros Hseed. split; [| apply translate_entry_origin].
  intros jp v Hv.
  pose proof (script_valid_preserved jp_terms max_retries s Hseed jp v Hv) as Hc.
  by split; [apply cyrillic_search_truthy |].
Qed.

End Translator.

(** ** The scenarios *)

Section TranslatorScenarios.

Import Ai TranslateScenario.

Example stubborn_run :
  let out := translate stubborn_endpoint stubborn_loads
               [py "京都"; py "奈良"; py "東京"] 2 seeded in
  (exists m, fst out = Return m /\
     m !! py "京都" = Some (py "京都") /\
     m !! py "奈良" = Some (py "Нара") /\
     m !! py "東京" = Some (py "Токио")) /\
  chat_calls (snd out) = [[py "京都"; py "奈良"]; [py "京都"]; [py "京都"]] /\
  CITY_TRANSLATIONS (snd out) !! py "奈良" = Some (py "Нара") /\
  CITY_TRANSLATIONS (snd out) !! py "京都" = None.
Proof.
  split; [| by vm_compute].
  eexists. split; [vm_compute; reflexivity |]. by vm_compute.
Qed.

(** C1 (amended) at the run above: one term is translated in the first
    round, one never is, one is seeded; the three calls go through. *)
Lemma translate_total_when_chat_returns_witness :
  exists m s',
    translate stubborn_endpoint stubborn_loads
      [py "京都"; py "奈良"; py "東京"] 2 seeded = (Return m, s') /\
    dom m = list_to_set [py "京都"; py "奈良"; py "東京"] /\
    (forall t, t ∈ [py "京都"; py "奈良"; py "東京"] ->
       m !! t = Some (default t (CITY_TRANSLATIONS s' !! t))) /\
    (forall t, t ∈ [py "京都"; py "奈良"; py "東京"] ->
       CITY_TRANSLATIONS s' !! t = None -> m !! t = Some t).
Proof.
  destruct (translate_total_when_chat_returns stubborn_endpoint stubborn_loads
              [py "京都"; py "奈良"; py "東京"] 2 seeded) as [Hkeys Hreturns].
  destruct Hreturns as (m & s' & Hm).
  - intros n missing _ Hcall.
    assert (Hcalls :
      chat_calls (snd (translate stubborn_endpoint stubborn_loads
                         [py "京都"; py "奈良"; py "東京"] 2 seeded))
        = [[py "京都"; py "奈良"]; [py "京都"]; [py "京都"]]).
    { vm_compute. reflexivity. }
    rewrite Hcalls in Hcall.
    destruct n as [|[|[|n]]]; [| | | done]; injection Hcall as <-;
      eexists; (split; [reflexivity |]); intros _; vm_compute;
      repeat constructor; intros _; by eexists.
  - exists m, s'. split; [exact Hm | exact (Hkeys m s' Hm)].
Defined.

(** C1 as stated fails when the endpoint answers with an error status:
    [chat] raises, [translate] does not catch it, no dictionary is
    returned. *)
Lemma translate_raises_when_endpoint_down :
  fst (translate endpoint_down nothing_parses [py "京都"] 2 seeded)
    = Raise (RuntimeError "DeepSeek API error: 503 - Service Unavailable") /\
  ~ (exists m,
       fst (translate endpoint_down nothing_parses [py "京都"] 2 seeded)
         = Return m /\
       dom m = list_to_set [py "京都"]).
Proof.
  assert (H : fst (translate endpoint_down nothing_parses [py "京都"] 2 seeded)
    = Raise (RuntimeError "DeepSeek API error: 503 - Service Unavailable")).
  { vm_compute. reflexivity. }
  split; [exact H |]. intros (m & Hm & _). rewrite H in Hm. discriminate Hm.
Qed.

(** C2 as stated fails on the flaky endpoint: the first round gets prose,
    the second call of [chat] raises; [translate] raises that error
    after two calls, although a third attempt was allowed and would have
    been answered. *)
Lemma translate_aborts_on_chat_error :
  fst (translate flaky_endpoint kyoto_loads [py "京都"] 2 seeded)
    = Raise (RuntimeError "DeepSeek API request failed: timeout") /\
  chat_calls (snd (translate flaky_endpoint kyoto_loads [py "京都"] 2 seeded))
    = [[py "京都"]; [py "京都"]] /\
  flaky_endpoint 2 [py "京都"] = ChatReturns kyoto_object.
Proof. by vm_compute. Qed.

(** C2 (amended) at that run: call number 1 is the one that raises. *)
Lemma chat_error_propagates_witness :
  fst (translate flaky_endpoint kyoto_loads [py "京都"] 2 seeded)
    = Raise (RuntimeError "DeepSeek API request failed: timeout") /\
  length (chat_calls
            (snd (translate flaky_endpoint kyoto_loads [py "京都"] 2 seeded)))
    = 2 /\
  CITY_TRANSLATIONS
    (snd (translate flaky_endpoint kyoto_loads [py "京都"] 2 seeded))
    = CITY_TRANSLATIONS seeded.
Proof.
  apply (proj1 (chat_error_propagates flaky_endpoint kyoto_loads)
           [py "京都"] 2%Z seeded 1 [py "京都"]).
  - simpl. lia.
  - vm_compute. reflexivity.
  - reflexivity.
Defined.

(** C3 as stated fails when a response carries a key that is already
    cached: the seeded entry for "東京" is overwritten. *)
Lemma seeded_entry_overwritten :
  CITY_TRANSLATIONS seeded !! py "東京" = Some (py "Токио") /\
  (exists m,
     fst (translate renaming_endpoint renaming_loads [py "京都"] 2 seeded)
       = Return m) /\
  CITY_TRANSLATIONS
    (snd (translate renaming_endpoint renaming_loads [py "京都"] 2 seeded))
    !! py "東京" = Some (py "Токё").
Proof.
  split; [by vm_compute |]. split; [| by vm_compute].
  eexists. vm_compute. reflexivity.
Qed.

(** A response that renames the seeded "東京" and gives "京都" without a
    Cyrillic letter; the next call of [chat] raises. The entry of "東京"
    is as before. *)
Example answered_entry_kept_on_error :
  let out := translate answer_then_error answer_then_error_loads
               [py "京都"] 2 seeded in
  fst out = Raise (RuntimeError "DeepSeek API request failed: timeout") /\
  chat_calls (snd out) = [[py "京都"]; [py "京都"]] /\
  CITY_TRANSLATIONS (snd out) !! py "東京" = Some (py "Токио").
Proof. by vm_compute. Qed.

(** A key answered in two rounds keeps the later candidate. *)
Example answered_twice_run :
  let out := translate answer_twice answer_twice_loads
               [py "京都"] 2 seeded in
  (exists m, fst out = Return m) /\
  chat_calls (snd out) = [[py "京都"]; [py "京都"]] /\
  CITY_TRANSLATIONS (snd out) !! py "東京" = Some (py "Тоокё") /\
  CITY_TRANSLATIONS (snd out) !! py "京都" = Some (py "Киото").
Proof.
  split; [| by vm_compute]. eexists. vm_compute. reflexivity.
Qed.

(** C3 (amended) at the renaming run, for the seeded "東京". *)
Lemma cache_entry_kept_or_answered_witness :
  exists v',
    CITY_TRANSLATIONS
      (snd (translate renaming_endpoint renaming_loads [py "京都"] 2 seeded))
      !! py "東京" = Some v' /\
    (forall e,
       fst (translate renaming_endpoint renaming_loads [py "京都"] 2 seeded)
         = Raise e -> v' = py "Токио") /\
    ((forall n w,
        length (chat_calls seeded) <= n ->
        ~ answered_at renaming_endpoint renaming_loads
            (snd (translate renaming_endpoint renaming_loads
                    [py "京都"] 2 seeded)) n (py "東京") w) ->
     v' = py "Токио") /\
    (forall m,
       fst (translate renaming_endpoint renaming_loads [py "京都"] 2 seeded)
         = Return m ->
       (exists n w,
          length (chat_calls seeded) <= n /\
          answered_at renaming_endpoint renaming_loads
            (snd (translate renaming_endpoint renaming_loads
                    [py "京都"] 2 seeded)) n (py "東京") w) ->
       exists n,
         length (chat_calls seeded) <= n /\
         answered_at renaming_endpoint renaming_loads
           (snd (translate renaming_endpoint renaming_loads
                   [py "京都"] 2 seeded)) n (py "東京") v' /\
         forall n' w,
           n < n' ->
           ~ answered_at renaming_endpoint renaming_loads
               (snd (translate renaming_endpoint renaming_loads
                       [py "京都"] 2 seeded)) n' (py "東京") w).
Proof.
  apply cache_entry_kept_or_answered. vm_compute. reflexivity.
Defined.

(** The seeded entries all hold Cyrillic letters. *)
Lemma seed_script_valid :
  map_Forall (fun _ v => cyrillic_search v = true) CITY_TRANSLATIONS_seed.
Proof.
  apply map_Forall_to_list. vm_compute. repeat constructor.
Qed.

(** From the seeded cache, whatever the endpoint and the parser do and
    whatever is asked, every value ever held by the cache has a Cyrillic
    letter. *)
Lemma seeded_session_script_valid chat_endpoint json_loads requests :
  map_Forall (fun _ v => cyrillic_search v = true)
    (CITY_TRANSLATIONS (session chat_endpoint json_loads requests seeded)).
Proof. apply session_script_valid, seed_script_valid. Qed.

(** C4 at the stubborn run, from the seeded cache: "Kyoto" and the empty
    candidate are not stored, " Нара " is stored stripped. *)
Lemma cache_script_valid_witness :
  map_Forall (fun _ v => truthy v = true /\ cyrillic_search v = true)
    (CITY_TRANSLATIONS
       (snd (translate stubborn_endpoint stubborn_loads
               [py "京都"; py "奈良"; py "東京"] 2 seeded))) /\
  (forall jp v,
     CITY_TRANSLATIONS
       (snd (translate stubborn_endpoint stubborn_loads
               [py "京都"; py "奈良"; py "東京"] 2 seeded)) !! jp = Some v ->
     CITY_TRANSLATIONS seeded !! jp = Some v \/
     exists ru, truthy ru = true /\ cyrillic_search ru = true /\ v = strip ru).
Proof.
  apply cache_script_valid.
  apply map_Forall_to_list. vm_compute. repeat constructor.
Defined.

End TranslatorScenarios.

(* ===================================================================== *)
(** * Report delivery                                                     *)
(* ===================================================================== *)

Section Delivery.

Import Telegram.

Variable _chat_id : pystr.
Variable bot_constructor : bool.
Variable bot_api : nat -> api_call -> bool.

Abbreviation send_message := (send_message _chat_id bot_constructor bot_api).
Abbreviation send_photo := (send_photo _chat_id bot_constructor bot_api).
Abbreviation send_weather_report :=
  (send_weather_report _chat_id bot_constructor bot_api).
Abbreviation chat_or_default := (chat_or_default _chat_id).

(** Both wrappers make one guarded request: without a [Bot] that can be
    had nothing is sent; otherwise the request is attempted and whether
    it completed is the result. *)
Lemma send_photo_unfold b photo caption chat_id s :
  send_photo (b :: photo) caption chat_id s =
    let c := BotSendPhoto (chat_or_default chat_id) (b :: photo) caption in
    if _bot s || bot_constructor
    then (Return (bot_api (length (sent s)) c), mkState true (sent s ++ [c]))
    else (Return false, s).
Proof.
  unfold Telegram.send_photo, try_except, bind, _get_bot, request,
    get, ret, raise, modify.
  destruct s as [[|] sent0]; simpl.
  - by destruct (bot_api _ _).
  - destruct bot_constructor; simpl; [| done]. by destruct (bot_api _ _).
Qed.

Lemma send_message_unfold c0 text chat_id s :
  send_message (c0 :: text) chat_id s =
    let c := BotSendMessage (chat_or_default chat_id) (c0 :: text) in
    if _bot s || bot_constructor
    then (Return (bot_api (length (sent s)) c), mkState true (sent s ++ [c]))
    else (Return false, s).
Proof.
  unfold Telegram.send_message, try_except, bind, _get_bot, request,
    get, ret, raise, modify.
  destruct s as [[|] sent0]; simpl.
  - by destruct (bot_api _ _).
  - destruct bot_constructor; simpl; [| done]. by destruct (bot_api _ _).
Qed.

(** The wrappers catch every exception: they return a boolean. *)
Lemma send_photo_returns photo caption chat_id s :
  exists ok, fst (send_photo photo caption chat_id s) = Return ok.
Proof.
  destruct photo as [|b photo]; [by exists false |].
  rewrite send_photo_unfold. cbv zeta.
  destruct (_ || _); by eexists.
Qed.

Lemma send_message_returns text chat_id s :
  exists ok, fst (send_message text chat_id s) = Return ok.
Proof.
  destruct text as [|c text]; [by exists false |].
  rewrite send_message_unfold. cbv zeta.
  destruct (_ || _); by eexists.
Qed.

(** C5 (amended). With empty image bytes [send_photo] returns [False]
    without a request, with an empty text [send_message] returns [False]
    without a request, and [send_weather_report] returns [False] without
    a request when both the summary and the image are empty. With an
    empty summary alone, [send_weather_report] is the combined send with
    the empty caption: no fallback follows, its outcome is the result. *)
Theorem delivery_short_circuits :
  (forall caption chat_id s,
     send_photo [] caption chat_id s = (Return false, s)) /\
  (forall chat_id s, send_message [] chat_id s = (Return false, s)) /\
  (forall s, send_weather_report [] [] s = (Return false, s)) /\
  (forall photo_bytes s,
     send_weather_report [] photo_bytes s
       = send_photo photo_bytes (Some []) None s).
Proof.
  repeat split; try done.
  intros photo_bytes s. unfold Telegram.send_weather_report, try_except, bind.
  destruct (send_photo_returns photo_bytes (Some []) None s) as [ok Hok].
  destruct (send_photo photo_bytes (Some []) None s) as [r s1]. simpl in Hok.
  subst r. by destruct ok.
Qed.

(** C6. When the combined send (image with the summary as caption)
    reports failure and the summary is not empty, [send_weather_report]
    goes on with exactly two sends, the image without caption and then
    the summary as a text message, and returns [True] whatever these two
    report. If the combined send was a request that Telegram refused,
    the requests of the whole delivery are these three, in this order. *)
Theorem delivery_fallback summary photo_bytes s s1 :
  send_photo photo_bytes (Some summary) None s = (Return false, s1) ->
  truthy summary = true ->
  exists r2 s2 r3 s3,
    send_photo photo_bytes None None s1 = (Return r2, s2) /\
    send_message summary None s2 = (Return r3, s3) /\
    send_weather_report summary photo_bytes s = (Return true, s3) /\
    (sent s1 <> sent s ->
     sent s3 = sent s ++ [ BotSendPhoto _chat_id photo_bytes (Some summary);
                           BotSendPhoto _chat_id photo_bytes None;
                           BotSendMessage _chat_id summary ]).
Proof.
  intros Hfirst Hsummary.
  destruct (send_photo photo_bytes None None s1) as [r2' s2] eqn:H2.
  destruct (send_photo_returns photo_bytes None None s1) as [r2 Hr2].
  rewrite H2 in Hr2. simpl in Hr2. subst r2'.
  destruct (send_message summary None s2) as [r3' s3] eqn:H3.
  destruct (send_message_returns summary None s2) as [r3 Hr3].
  rewrite H3 in Hr3. simpl in Hr3. subst r3'.
  exists r2, s2, r3, s3. split; [done |]. split; [done |]. split.
  - unfold Telegram.send_weather_report, try_except, bind.
    rewrite Hfirst, Hsummary. simpl. by rewrite H2, H3.
  - intros Hsent.
    destruct photo_bytes as [|b photo]; [by injection Hfirst as <- |].
    destruct summary as [|c text]; [done |].
    rewrite send_photo_unfold in Hfirst, H2. rewrite send_message_unfold in H3.
    cbv zeta in Hfirst, H2, H3. cbn [Telegram.chat_or_default] in Hfirst, H2, H3.
    destruct (_bot s || bot_constructor); [| by injection Hfirst as <-].
    injection Hfirst as _ <-. simpl in H2. injection H2 as _ <-.
    simpl in H3. injection H3 as _ <-. simpl. by rewrite <- !app_assoc.
Qed.

End Delivery.

Section DeliveryScenarios.

Import Telegram DeliveryScenario.

(** C5 as stated fails for an empty summary: the image is sent with the
    empty caption, one request is made and the report is a success. *)
Lemma empty_summary_is_sent :
  send_weather_report channel true api_up [] png fresh =
    (Return true, mkState true [BotSendPhoto channel png (Some [])]).
Proof. vm_compute. reflexivity. Qed.

(** With empty image bytes and a summary, the combined send
    short-circuits, and the fallback then sends the text. *)
Example empty_image_text_is_sent :
  send_weather_report channel true api_up (py "Дождь.") [] fresh =
    (Return true, mkState true [BotSendMessage channel (py "Дождь.")]).
Proof. vm_compute. reflexivity. Qed.

(** C6 when the caption is refused. *)
Lemma delivery_fallback_witness :
  exists r2 s2 r3 s3,
    send_photo channel true caption_refused png None None
      (mkState true [BotSendPhoto channel png (Some (py "Дождь."))])
      = (Return r2, s2) /\
    send_message channel true caption_refused (py "Дождь.") None s2
      = (Return r3, s3) /\
    send_weather_report channel true caption_refused (py "Дождь.") png fresh
      = (Return true, s3) /\
    (sent (mkState true [BotSendPhoto channel png (Some (py "Дождь."))])
       <> sent fresh ->
     sent s3 = sent fresh ++ [ BotSendPhoto channel png (Some (py "Дождь."));
                               BotSendPhoto channel png None;
                               BotSendMessage channel (py "Дождь.") ]).
Proof.
  apply delivery_fallback; vm_compute; reflexivity.
Defined.

Example caption_refused_run :
  send_weather_report channel true caption_refused (py "Дождь.") png fresh =
    (Return true,
     mkState true [ BotSendPhoto channel png (Some (py "Дождь."));
                    BotSendPhoto channel png None;
                    BotSendMessage channel (py "Дождь.") ]).
Proof. vm_compute. reflexivity. Qed.

End DeliveryScenarios.

(* ===================================================================== *)
(** * The page extractor                                                  *)
(* ===================================================================== *)

Section Extractor.

Import Browser.

Context {T : Type}.
Variable pg : page.
Variable translate_func : list pystr -> M T (gmap pystr pystr).

Implicit Types (s : state T).

Lemma process_no_tiles s :
  scraped pg = Return [] ->
  exists e evs,
    process pg translate_func s
      = (Raise e, mkState (events s ++ evs) (translator s)) /\
    evs `prefix_of` opening /\
    (evs = opening -> e = RuntimeError "No weather tiles found").
Proof.
  intros Hscr.
  unfold process, scrape_weather_data, bind, call, raise. simpl. rewrite Hscr.
  destruct (launch_page pg) as [[]|e1].
  2: { exists e1, [Launch]. repeat split; [by eexists | done]. }
  destruct (goto pg) as [[]|e2].
  2: { exists e2, [Launch; Goto].
       rewrite <- !app_assoc. repeat split; [by eexists | done]. }
  destruct (wait_for_selector pg) as [[]|e3].
  2: { exists e3, [Launch; Goto; WaitForSelector 30000].
       rewrite <- !app_assoc. repeat split; [by eexists | done]. }
  exists (RuntimeError "No weather tiles found"), opening.
  rewrite <- !app_assoc. by repeat split.
Qed.

(** C7. When the scrape finds no tile, [process] raises; up to then it
    has only opened the page and scraped it, so neither the translate
    capability nor the screenshot was called, and the state of the
    capability is untouched. If the page opened normally the error is
    [RuntimeError('No weather tiles found')]. *)
Theorem extraction_fatal_empty s :
  scraped pg = Return [] ->
  exists e,
    fst (process pg translate_func s) = Raise e /\
    (launch_page pg = Return tt -> goto pg = Return tt ->
     wait_for_selector pg = Return tt ->
     e = RuntimeError "No weather tiles found") /\
    translator (snd (process pg translate_func s)) = translator s /\
    exists evs,
      events (snd (process pg translate_func s)) = events s ++ evs /\
      Forall (fun ev => (forall ns, ev <> Translate ns) /\ ev <> Screenshot) evs.
Proof.
  intros Hscr.
  destruct (process_no_tiles s Hscr) as (e & evs & Hp & Hpre & Herr).
  exists e. rewrite Hp. simpl. split; [done |]. split; [| split].
  - intros Hl Hg Hw. revert Hp.
    unfold process, scrape_weather_data, bind, call, raise. simpl.
    rewrite Hscr, Hl, Hg, Hw. by intros [= <- _].
  - reflexivity.
  - exists evs. split; [done |].
    destruct Hpre as [rest Hrest].
    assert (Hall : Forall (fun ev => (forall ns, ev <> Translate ns)
                                     /\ ev <> Screenshot) opening).
    { unfold opening. by repeat constructor. }
    rewrite Hrest in Hall. by apply Forall_app in Hall as [? _].
Qed.

Lemma records_names (mapping : gmap pystr pystr) (raw_data : list tile) :
  List.map jp
    (List.map (fun r => mkCityWeather (name r)
                          (default (name r) (mapping !! name r))
                          (normalize_max (max r)) (tile_alt r))
              (List.filter (fun r => truthy (name r)) raw_data))
  = List.filter truthy (List.map name raw_data).
Proof.
  induction raw_data as [|r l IH]; [reflexivity |].
  simpl. destruct (truthy (name r)); simpl; by rewrite IH.
Qed.

(** The records are built from the tiles that have a name. *)
Lemma process_records s wd shot s' :
  process pg translate_func s = (Return (wd, shot), s') ->
  exists raw_data,
    scraped pg = Return raw_data /\
    List.map jp wd = List.filter truthy (List.map name raw_data).
Proof.
  unfold process, scrape_weather_data, bind, call, raise. simpl.
  destruct (launch_page pg) as [[]|]; [| done].
  destruct (goto pg) as [[]|]; [| done].
  destruct (wait_for_selector pg) as [[]|]; [| done].
  destruct (scraped pg) as [raw_data|]; [| done].
  destruct raw_data as [|r0 raw]; [done |].
  destruct (call_translate _ _ _) as [[mapping|] s1]; [| done].
  destruct (replace_city_names pg mapping s1) as [[dom_ok|] s2]; [| done].
  unfold apply_styles, capture_screenshot, call. simpl.
  destruct (add_style_tag pg) as [[]|]; [| done].
  destruct (screenshot pg) as [shot0|]; [| done].
  destruct (close pg) as [[]|]; [| done].
  unfold ret. intros [= <- _ _]. exists (r0 :: raw). split; [done |].
  exact (records_names mapping (r0 :: raw)).
Qed.

(** The verification of the injected names raises only if a read of the
    name elements does. *)
Lemma replace_city_names_returns mapping s :
  (forall n, exists ns, names pg n = Return ns) ->
  exists dom_ok evs,
    replace_city_names pg mapping s
      = (Return dom_ok, mkState (events s ++ evs) (translator s)).
Proof.
  intros Hnames.
  assert (Hretry : forall n i s0, exists ok evs,
            verify_retry pg n i s0
              = (Return ok, mkState (events s0 ++ evs) (translator s0))).
  { induction n as [|n IH]; intros i s0; simpl.
    - exists false, []. rewrite app_nil_r. by destruct s0.
    - unfold bind, call. simpl. destruct (Hnames (S i)) as [ns ->].
      destruct (any_cyrillic ns).
      + eexists true, _. unfold ret. by rewrite <- app_assoc.
      + destruct (IH (S i) (mkState ((events s0 ++ [Sleep 300]) ++ [EvaluateNames])
                                      (translator s0))) as (ok & evs & ->).
        simpl. eexists ok, _. by rewrite <- !app_assoc. }
  unfold replace_city_names, bind, call. cbn -[verify_retry].
  destruct (Hnames 0) as [ns ->]. destruct (any_cyrillic ns).
  - by eexists true, _.
  - destruct (Hretry 3 0 (mkState (events s ++ [EvaluateReplace mapping])
                                   (translator s))) as (ok & evs & ->).
    simpl. eexists ok, _. by rewrite <- !app_assoc.
Qed.

(** C10. Every record that [process] returns has a non-empty source
    name: the records come from the tiles whose name is not empty, in
    order, the other tiles are dropped. Tiles without a name still count
    for the no-tile check: on a page that loads and renders, where tiles
    were found but all without a name, [process] asks for the
    translation of no name and, when that returns, returns the empty
    record list with the screenshot. *)
Theorem records_have_source_names :
  (forall s wd shot s',
     process pg translate_func s = (Return (wd, shot), s') ->
     Forall (fun r => truthy (jp r) = true) wd /\
     exists raw_data,
       scraped pg = Return raw_data /\
       List.map jp wd = List.filter truthy (List.map name raw_data)) /\
  (forall s r0 raw shot,
     launch_page pg = Return tt -> goto pg = Return tt ->
     wait_for_selector pg = Return tt ->
     scraped pg = Return (r0 :: raw) ->
     Forall (fun r => name r = []) (r0 :: raw) ->
     (exists m t', translate_func [] (translator s) = (Return m, t')) ->
     (forall n, exists ns, names pg n = Return ns) ->
     add_style_tag pg = Return tt -> screenshot pg = Return shot ->
     close pg = Return tt ->
     exists s', process pg translate_func s = (Return ([], shot), s')).
Proof.
  split.
  - intros s wd shot s' Hp.
    destruct (process_records _ _ _ _ Hp) as (raw_data & Hscr & Hjp).
    split; [| by exists raw_data].
    assert (Hall : Forall (fun n => truthy n = true) (List.map jp wd)).
    { rewrite Hjp. apply Forall_forall. intros n Hn.
      apply list_elem_of_In, filter_In in Hn. by destruct Hn. }
    by apply Forall_map in Hall.
  - intros s r0 raw shot Hl Hg Hw Hscr Hnameless (m & t' & Htr) Hnames Hst Hshot Hcl.
    assert (Hfilter : List.filter (fun r => truthy (name r)) (r0 :: raw) = []).
    { generalize (r0 :: raw), Hnameless. intros l Hl'.
      induction Hl' as [|r l Hr _ IH]; [done |]. simpl. by rewrite Hr. }
    unfold process, scrape_weather_data, bind, call, raise. simpl.
    rewrite Hl, Hg, Hw, Hscr. rewrite Hfilter. simpl.
    unfold call_translate. simpl. rewrite Htr.
    match goal with
    | |- context [replace_city_names pg m ?s0] =>
        destruct (replace_city_names_returns m s0 Hnames) as (ok & evs & ->)
    end.
    unfold apply_styles, capture_screenshot, call. simpl.
    rewrite Hst, Hshot, Hcl. by eexists.
Qed.

End Extractor.

Section ExtractorScenarios.

Import Browser PageScenario.

Example blank_page_run :
  process blank_page offline_translate start =
    (Raise (RuntimeError "No weather tiles found"),
     mkState [Launch; Goto; WaitForSelector 30000; Sleep 10000; EvaluateScrape]
             TranslateScenario.seeded).
Proof. vm_compute. reflexivity. Qed.

(** C7 on the blank page. *)
Lemma extraction_fatal_empty_witness :
  exists e,
    fst (process blank_page offline_translate start) = Raise e /\
    (launch_page blank_page = Return tt -> goto blank_page = Return tt ->
     wait_for_selector blank_page = Return tt ->
     e = RuntimeError "No weather tiles found") /\
    translator (snd (process blank_page offline_translate start))
      = translator start /\
    exists evs,
      events (snd (process blank_page offline_translate start))
        = events start ++ evs /\
      Forall (fun ev => (forall ns, ev <> Translate ns) /\ ev <> Screenshot) evs.
Proof.
  apply extraction_fatal_empty. reflexivity.
Defined.

Example mixed_page_run :
  exists s',
    process mixed_page offline_translate start =
      (Return ([mkCityWeather (py "東京") (py "Токио") [] (py "くもり時々雨")], png),
       s').
Proof. eexists. vm_compute. reflexivity. Qed.

(** C10 on the nameless page: the extractor returns no record, without
    raising, even though the endpoint is down. *)
Lemma records_have_source_names_witness :
  exists s',
    process nameless_page offline_translate start = (Return ([], png), s').
Proof.
  eapply (proj2 (records_have_source_names nameless_page offline_translate));
    try reflexivity.
  - repeat constructor.
  - eexists _, _. vm_compute. reflexivity.
  - intros n. by eexists.
Defined.

End ExtractorScenarios.

(* ===================================================================== *)
(** * More on the name translator                                         *)
(* ===================================================================== *)

Section TranslatorCalls.

Import Ai.

Variable chat_endpoint : nat -> list pystr -> chat_result.
Variable json_loads : pystr -> loads_result.

Abbreviation retry_loop := (retry_loop chat_endpoint json_loads).
Abbreviation translate := (translate chat_endpoint json_loads).

Implicit Types (cache good result : gmap pystr pystr).
Implicit Types (missing jp_terms : list pystr) (s : state).

Lemma to_do_of_nil jp_terms cache :
  Forall (fun t => t = [] \/ is_Some (cache !! t)) jp_terms ->
  to_do_of jp_terms cache = [].
Proof.
  unfold to_do_of, cached. induction 1 as [|t l Ht _ IH]; [done |].
  simpl. rewrite IH. destruct Ht as [-> | [v ->]]; [done |].
  by rewrite andb_false_r.
Qed.

Lemma to_do_of_spec jp_terms cache t :
  t ∈ to_do_of jp_terms cache <->
  t ∈ jp_terms /\ t <> [] /\ cache !! t = None.
Proof.
  unfold to_do_of, cached.
  rewrite !list_elem_of_In, filter_In, andb_true_iff, negb_true_iff.
  split.
  - intros (Hin & Ht & Hc). split; [done |]. split; [by destruct t |].
    by destruct (cache !! t).
  - intros (Hin & Ht & ->). split; [done |]. by destruct t.
Qed.

(** X1. Terms that are empty or already cached need no call: the cache
    answers, the endpoint is not asked, nothing changes. *)
Theorem translate_cached_without_call jp_terms max_retries s :
  Forall (fun t => t = [] \/ is_Some (CITY_TRANSLATIONS s !! t)) jp_terms ->
  exists m,
    translate jp_terms max_retries s = (Return m, s) /\
    dom m = list_to_set jp_terms /\
    forall t v, t ∈ jp_terms -> CITY_TRANSLATIONS s !! t = Some v ->
                m !! t = Some v.
Proof.
  intros Hall. exists (lookup_all jp_terms (CITY_TRANSLATIONS s)).
  rewrite translate_unfold, (to_do_of_nil _ _ Hall).
  split; [done |]. split; [apply lookup_all_dom |].
  intros t v Ht Hv. rewrite lookup_all_lookup, Hv.
  by destruct (decide (t ∈ jp_terms)).
Qed.

(** What the loop asks for: never an empty list, first of all the terms
    it was started with. *)
Lemma retry_loop_requests rounds missing result s r s' :
  retry_loop rounds missing result s = (r, s') ->
  exists calls,
    chat_calls s' = chat_calls s ++ calls /\
    Forall (fun m => m <> []) calls /\
    forall m, head calls = Some m -> m = missing.
Proof.
  revert missing result s.
  induction rounds as [|rounds IH]; intros missing result s.
  { rewrite retry_loop_stop by auto. intros [= <- <-].
    exists []. by rewrite app_nil_r. }
  destruct missing as [|t missing].
  { rewrite retry_loop_stop by auto. intros [= <- <-].
    exists []. by rewrite app_nil_r. }
  rewrite retry_loop_step. cbv zeta.
  set (s1 := logged s (t :: missing)).
  assert (Hone : chat_calls s1 = chat_calls s ++ [t :: missing] /\
                 Forall (fun m => m <> []) [t :: missing] /\
                 forall m, head [t :: missing] = Some m -> m = t :: missing).
  { split; [done |]. split; [by repeat constructor |]. by intros m [= <-]. }
  assert (Hnext : forall missing' result',
            retry_loop rounds missing' result' s1 = (r, s') ->
            exists calls,
              chat_calls s' = chat_calls s ++ calls /\
              Forall (fun m => m <> []) calls /\
              forall m, head calls = Some m -> m = t :: missing).
  { intros missing' result' Hloop.
    destruct (IH _ _ _ Hloop) as (calls & Hcalls & Hne & _).
    exists ((t :: missing) :: calls). split.
    - rewrite Hcalls. unfold s1, logged. simpl. by rewrite <- app_assoc.
    - split; [by constructor |]. by intros m [= <-]. }
  destruct (chat_endpoint _ _) as [e0|resp].
  { intros [= <- <-]. by exists [t :: missing]. }
  destruct (_ && _); [| apply Hnext].
  destruct (json_loads _) as [data| |e0]; [| apply Hnext |].
  2: { intros [= <- <-]. by exists [t :: missing]. }
  destruct (validate data ∅ []) as [[good bad]|e0]; [apply Hnext |].
  intros [= <- <-]. by exists [t :: missing].
Qed.

Lemma translate_chat_calls jp_terms max_retries s :
  chat_calls (snd (translate jp_terms max_retries s)) =
    match to_do_of jp_terms (CITY_TRANSLATIONS s) with
    | [] => chat_calls s
    | to_do =>
        chat_calls (snd (retry_loop (Z.to_nat (max_retries + 1)) to_do ∅ s))
    end.
Proof.
  rewrite translate_unfold.
  destruct (to_do_of _ _) as [|t to_do]; [done |].
  by destruct (retry_loop _ _ _ s) as [[[missing result]|e] s1].
Qed.

(** X2. A call of [translate] asks the endpoint at most
    [max_retries + 1] times, and not at all when [max_retries] is
    negative: the cache then answers alone and is left as it is. *)
Theorem translate_bounded_calls jp_terms max_retries s :
  length (chat_calls (snd (translate jp_terms max_retries s)))
    <= length (chat_calls s) + Z.to_nat (max_retries + 1) /\
  ((max_retries < 0)%Z ->
   translate jp_terms max_retries s
     = (Return (lookup_all jp_terms (CITY_TRANSLATIONS s)), s)).
Proof.
  split.
  - rewrite translate_chat_calls.
    destruct (to_do_of _ _) as [|t to_do]; [lia |].
    destruct (retry_loop _ _ _ s) as [r s1] eqn:Hloop.
    destruct (retry_loop_calls _ _ _ _ _ _ _ _ Hloop)
      as (_ & calls & Hcalls & Hlen & _).
    simpl. rewrite Hcalls, length_app. lia.
  - intros Hneg. rewrite translate_unfold.
    replace (Z.to_nat (max_retries + 1)) with O by lia.
    destruct (to_do_of _ _) as [|t to_do]; [done |].
    rewrite retry_loop_stop by auto. rewrite (left_id_L ∅ (∪)).
    by destruct s.
Qed.

(** X3. No call of [translate] asks the endpoint for an empty list of
    terms, and the first list it sends is made of the input terms that
    are non-empty and not cached, in input order. *)
Theorem translate_requests jp_terms max_retries s n missing :
  length (chat_calls s) <= n ->
  chat_calls (snd (translate jp_terms max_retries s)) !! n = Some missing ->
  missing <> [] /\
  (n = length (chat_calls s) ->
   missing = to_do_of jp_terms (CITY_TRANSLATIONS s) /\
   forall t, t ∈ missing <->
             t ∈ jp_terms /\ t <> [] /\ CITY_TRANSLATIONS s !! t = None).
Proof.
  intros Hn. rewrite translate_chat_calls.
  destruct (to_do_of _ _) as [|t to_do] eqn:Htodo.
  { intros Hcall%lookup_lt_Some. lia. }
  destruct (retry_loop _ _ _ s) as [r s1] eqn:Hloop.
  destruct (retry_loop_requests _ _ _ _ _ _ Hloop)
    as (calls & Hcalls & Hne & Hhead).
  simpl. rewrite Hcalls, lookup_app_r by done. intros Hcall. split.
  - rewrite Forall_forall in Hne. apply Hne.
    by eapply list_elem_of_lookup_2.
  - intros ->. rewrite Nat.sub_diag in Hcall.
    assert (missing = t :: to_do) as ->.
    { apply Hhead. by destruct calls; simplify_eq/=. }
    split; [done |]. intros u. rewrite <- Htodo. apply to_do_of_spec.
Qed.

Lemma translate_value_origin jp_terms max_retries s m s' :
  map_Forall (fun _ v => cyrillic_search v = true) (CITY_TRANSLATIONS s) ->
  translate jp_terms max_retries s = (Return m, s') ->
  forall t v, m !! t = Some v ->
    t ∈ jp_terms /\ (v = t \/ cyrillic_search v = true).
Proof.
  intros Hvalid Htr t v.
  pose proof (script_valid_preserved chat_endpoint json_loads
                jp_terms max_retries s Hvalid) as Hvalid'.
  rewrite Htr in Hvalid'. simpl in Hvalid'.
  apply translate_returns_lookup in Htr as ->.
  rewrite lookup_all_lookup.
  destruct (decide (t ∈ jp_terms)) as [Hin|]; [| done].
  intros [= <-]. split; [done |].
  destruct (CITY_TRANSLATIONS s' !! t) as [w|] eqn:Hw; simpl; [| by left].
  right. by apply (Hvalid' t).
Qed.

(** X4. From a cache whose values all hold a Cyrillic letter, every
    value of the dictionary that [translate] returns is the term itself
    or holds a Cyrillic letter, and its keys are input terms. *)
Theorem translate_values jp_terms max_retries s m s' :
  map_Forall (fun _ v => cyrillic_search v = true) (CITY_TRANSLATIONS s) ->
  translate jp_terms max_retries s = (Return m, s') ->
  forall t v, m !! t = Some v ->
    t ∈ jp_terms /\ (v = t \/ cyrillic_search v = true).
Proof. apply translate_value_origin. Qed.

(** When every candidate of an object is a string with a Cyrillic
    letter, none is rejected. *)
Lemma validate_all_valid items good bad :
  Forall (fun kv => exists ru, snd kv = JStr ru /\ cyrillic_search ru = true)
         items ->
  exists good', validate items good bad = Return (good', bad).
Proof.
  intros Hall. revert good.
  induction Hall as [|[k v] items (ru & Hv & Hcyr) _ IH]; intros good; simpl.
  - by eexists.
  - simpl in Hv. subst v. simpl.
    rewrite (cyrillic_search_truthy _ Hcyr), Hcyr. apply IH.
Qed.

(** X5. The loop goes on only for rejected candidates. When the first
    response holds an object whose candidates are all accepted, that
    call is the only one, even with retries left and even if the object
    leaves out terms that were asked for: such a term is not asked
    again and maps to itself. *)
Theorem translate_stops_without_rejects jp_terms max_retries s resp data :
  (0 <= max_retries)%Z ->
  to_do_of jp_terms (CITY_TRANSLATIONS s) <> [] ->
  chat_endpoint (length (chat_calls s))
                (to_do_of jp_terms (CITY_TRANSLATIONS s)) = ChatReturns resp ->
  (0 <=? find 123 resp)%Z && (find 123 resp <? rfind 125 resp)%Z = true ->
  json_loads (slice resp (find 123 resp) (rfind 125 resp + 1)) = Parsed data ->
  Forall (fun kv => exists ru, snd kv = JStr ru /\ cyrillic_search ru = true)
         data ->
  exists m s',
    translate jp_terms max_retries s = (Return m, s') /\
    chat_calls s' =
      chat_calls s ++ [to_do_of jp_terms (CITY_TRANSLATIONS s)] /\
    forall t, t ∈ jp_terms -> t ∉ List.map fst data ->
              CITY_TRANSLATIONS s !! t = None -> m !! t = Some t.
Proof.
  intros Hretries Htodo Hresp Hguard Hdata Hall.
  rewrite translate_unfold.
  destruct (to_do_of _ _) as [|t0 to_do]; [done |].
  destruct (Z.to_nat (max_retries + 1)) as [|rounds] eqn:Hrounds; [lia |].
  rewrite retry_loop_step. cbv zeta. rewrite Hresp, Hguard, Hdata.
  destruct (validate_all_valid data ∅ [] Hall) as [good Hval].
  rewrite Hval, retry_loop_stop by auto.
  eexists _, _. split; [reflexivity |]. split; [done |].
  intros t Ht Hkey Hcache. simpl. rewrite lookup_all_lookup.
  destruct (decide (t ∈ jp_terms)); [| done].
  rewrite (right_id_L ∅ (∪)), lookup_union_r, Hcache; [done |].
  destruct (good !! t) as [v|] eqn:Hv; [| done]. exfalso.
  destruct (validate_good _ _ _ _ _ Hval t v Hv) as [He | (ru & Hin & _)];
    [done |].
  apply Hkey. apply list_elem_of_In, in_map_iff. exists (t, JStr ru).
  split; [done |]. by apply list_elem_of_In.
Qed.

(** X6. When [translate] raises, the exception comes from the last call
    of [chat] it made: that call raised it; or [json.loads] raised it on
    the object text of the response, not being a [JSONDecodeError]; or
    it is the [TypeError] of a value of the parsed object that is truthy
    and not a string. The cache is then as it was before the call: what
    earlier rounds of that call had accepted is not kept. *)
Theorem translate_raises_only jp_terms max_retries s e :
  fst (translate jp_terms max_retries s) = Raise e ->
  CITY_TRANSLATIONS (snd (translate jp_terms max_retries s))
    = CITY_TRANSLATIONS s /\
  exists calls last,
    chat_calls (snd (translate jp_terms max_retries s))
      = chat_calls s ++ calls ++ [last] /\
    fails_with chat_endpoint json_loads
      (length (chat_calls s) + length calls) last e.
Proof.
  rewrite translate_unfold.
  destruct (to_do_of _ _) as [|t to_do]; [done |].
  destruct (retry_loop _ _ _ s) as [[[missing result]|e0] s1] eqn:Hloop;
    [done |].
  simpl. intros [= ->].
  destruct (retry_loop_calls _ _ _ _ _ _ _ _ Hloop) as [Hcache _].
  split; [done |]. by apply (retry_loop_raise _ _ _ _ _ _ _ _ Hloop).
Qed.

End TranslatorCalls.

(* ===================================================================== *)
(** * The summary generator                                               *)
(* ===================================================================== *)

Section Stripping.

Implicit Types s l : pystr.

Lemma lstrip_head s c r : lstrip s = c :: r -> isspace c = false.
Proof.
  induction s as [|a s IH]; simpl; [done |].
  destruct (isspace a) eqn:Ha; [done |]. by intros [= <- _].
Qed.

Lemma lstrip_fixed c r : isspace c = false -> lstrip (c :: r) = c :: r.
Proof. intros Hc. simpl. by rewrite Hc. Qed.

Lemma lstrip_idempotent s : lstrip (lstrip s) = lstrip s.
Proof.
  destruct (lstrip s) as [|c r] eqn:Hs; [done |].
  apply lstrip_fixed. by apply (lstrip_head s c r).
Qed.

Lemma lstrip_snoc l c :
  isspace c = false -> lstrip (l ++ [c]) = lstrip l ++ [c].
Proof.
  intros Hc. induction l as [|a l IH]; simpl; [by rewrite Hc |].
  by destruct (isspace a).
Qed.

Lemma rstrip_idempotent s : rstrip (rstrip s) = rstrip s.
Proof. unfold rstrip. by rewrite rev_involutive, lstrip_idempotent. Qed.

Lemma lstrip_rstrip_lstrip s : lstrip (rstrip (lstrip s)) = rstrip (lstrip s).
Proof.
  destruct (lstrip s) as [|c r] eqn:Hs; [done |].
  pose proof (lstrip_head s c r Hs) as Hc.
  unfold rstrip. simpl. rewrite (lstrip_snoc _ _ Hc), rev_app_distr. simpl.
  by rewrite Hc.
Qed.

Lemma strip_idempotent s : strip (strip s) = strip s.
Proof.
  unfold strip at 1. unfold strip.
  by rewrite lstrip_rstrip_lstrip, rstrip_idempotent.
Qed.

(** A stripped text neither starts nor ends with white space. *)
Lemma strip_ends s c :
  head (strip s) = Some c \/ last (strip s) = Some c -> isspace c = false.
Proof.
  intros [Hhead | Hlast].
  - unfold strip in Hhead. rewrite <- lstrip_rstrip_lstrip in Hhead.
    destruct (lstrip (rstrip (lstrip s))) as [|a r] eqn:Hl; [done |].
    injection Hhead as ->. by apply (lstrip_head _ _ _ Hl).
  - unfold strip, rstrip in Hlast.
    destruct (lstrip (rev (lstrip s))) as [|a r] eqn:Hl; [done |].
    simpl in Hlast. rewrite last_snoc in Hlast.
    injection Hlast as ->. by apply (lstrip_head _ _ _ Hl).
Qed.

End Stripping.

Section SummaryGenerator.

Import Ai Summary.

Variable _api_key : pystr.
Variable endpoint : nat -> request -> chat_result.
Variable current_date : pystr.
Variable json_dumps : list payload_entry -> pystr.

Abbreviation chat := (chat _api_key endpoint).
Abbreviation build_weather_summary :=
  (build_weather_summary _api_key endpoint current_date json_dumps).
Abbreviation rephrase_weather_summary :=
  (rephrase_weather_summary _api_key endpoint).

Implicit Types (s : state).

(** With an API key, [chat] posts once and hands on what the endpoint
    does, the text stripped. *)
Lemma chat_with_key messages temperature s :
  truthy _api_key = true ->
  chat messages temperature s =
    (match endpoint (length (requests s)) (mkRequest messages temperature) with
     | ChatRaises e => Raise e
     | ChatReturns text => Return (strip text)
     end,
     mkState (requests s ++ [mkRequest messages temperature])).
Proof.
  intros Hkey. unfold Summary.chat. rewrite Hkey. simpl.
  by destruct (endpoint _ _).
Qed.

Lemma chat_without_key messages temperature s :
  truthy _api_key = false ->
  chat messages temperature s
    = (Raise (ValueError "DeepSeek API key is not set"), s).
Proof. intros Hkey. unfold Summary.chat. by rewrite Hkey. Qed.

Lemma chat_returns_stripped messages temperature s r s' :
  chat messages temperature s = (Return r, s') -> strip r = r.
Proof.
  destruct (truthy _api_key) eqn:Hkey.
  - rewrite chat_with_key by done.
    destruct (endpoint _ _) as [e|text]; [done |].
    intros [= <- _]. apply strip_idempotent.
  - by rewrite chat_without_key.
Qed.

(** X7. The summary request is built from the names, the temperature
    and the icon text of the records: their [condition], the phrase the
    classifier gave, is not part of it. Records that differ only there
    give the same request and the same outcome. *)
Theorem summary_ignores_condition records records' s :
  Forall2 (fun r r' => jp r = jp r' /\ ru r = ru r' /\
                       max_c r = max_c r' /\ alt r = alt r')
          records records' ->
  build_weather_summary records s = build_weather_summary records' s.
Proof.
  intros Hagree. unfold Summary.build_weather_summary.
  assert (payload_of records = payload_of records') as ->; [| done].
  unfold payload_of.
  induction Hagree as [|r r' l l' (Hjp & Hru & Hmax & Halt) _ IH]; [done |].
  simpl. by rewrite IH, Hjp, Hru, Hmax, Halt.
Qed.

(** Rephrasing an empty summary posts nothing and returns the empty
    summary. Rephrasing a non-empty one posts exactly one request, at
    temperature 0.5, whose user message is the summary as it is, and
    hands on the outcome of that request. *)
Lemma rephrase_posts_once :
  (forall s, rephrase_weather_summary [] s = (Return [], s)) /\
  (forall summary s,
     truthy summary = true -> truthy _api_key = true ->
     rephrase_weather_summary summary s =
       (match endpoint (length (requests s))
                (mkRequest [mkMessage (py "system") WEATHER_REPHRASE_SYSTEM_PROMPT;
                            mkMessage (py "user") summary] 5) with
        | ChatRaises e => Raise e
        | ChatReturns text => Return (strip text)
        end,
        mkState
          (requests s ++
           [mkRequest [mkMessage (py "system") WEATHER_REPHRASE_SYSTEM_PROMPT;
                       mkMessage (py "user") summary] 5]))).
Proof.
  split; [done |]. intros summary s Hsummary Hkey.
  unfold Summary.rephrase_weather_summary, bind. rewrite Hsummary. simpl.
  rewrite chat_with_key by done. by destruct (endpoint _ _).
Qed.

(** X8. Without an API key nothing is posted: building a summary, and
    rephrasing a non-empty one, raise [ValueError] and leave the record
    of requests as it is. *)
Theorem no_api_key_no_request :
  truthy _api_key = false ->
  (forall records s,
     build_weather_summary records s
       = (Raise (ValueError "DeepSeek API key is not set"), s)) /\
  (forall summary s,
     truthy summary = true ->
     rephrase_weather_summary summary s
       = (Raise (ValueError "DeepSeek API key is not set"), s)).
Proof.
  intros Hkey. split.
  - intros records s. unfold Summary.build_weather_summary.
    by apply chat_without_key.
  - intros summary s Hsummary.
    unfold Summary.rephrase_weather_summary, bind. rewrite Hsummary. simpl.
    by rewrite chat_without_key.
Qed.

(** X9. The texts the generator returns are stripped: a summary or a
    rephrased summary neither starts nor ends with white space. *)
Theorem generated_text_is_stripped :
  (forall records s r s',
     build_weather_summary records s = (Return r, s') ->
     strip r = r /\
     forall c, head r = Some c \/ last r = Some c -> isspace c = false) /\
  (forall summary s r s',
     truthy summary = true ->
     rephrase_weather_summary summary s = (Return r, s') ->
     strip r = r /\
     forall c, head r = Some c \/ last r = Some c -> isspace c = false).
Proof.
  assert (Hends : forall r, strip r = r ->
            forall c, head r = Some c \/ last r = Some c -> isspace c = false).
  { intros r Hr c. rewrite <- Hr. apply strip_ends. }
  split.
  - intros records s r s' Hb.
    apply chat_returns_stripped in Hb. split; [done | by apply Hends].
  - intros summary s r s' Hsummary.
    unfold Summary.rephrase_weather_summary, bind. rewrite Hsummary. simpl.
    destruct (chat _ _ s) as [[r0|e] s1] eqn:Hchat; [| done].
    intros [= <- _]. apply chat_returns_stripped in Hchat.
    split; [done | by apply Hends].
Qed.

End SummaryGenerator.

(* ===================================================================== *)
(** * More on report delivery                                             *)
(* ===================================================================== *)

Section DeliveryRequests.

Import Telegram.

Variable _chat_id : pystr.
Variable bot_constructor : bool.
Variable bot_api : nat -> api_call -> bool.

Abbreviation send_message := (send_message _chat_id bot_constructor bot_api).
Abbreviation send_photo := (send_photo _chat_id bot_constructor bot_api).
Abbreviation send_weather_report :=
  (send_weather_report _chat_id bot_constructor bot_api).
Abbreviation chat_or_default := (chat_or_default _chat_id).

Implicit Types (s : state).


Lemma send_message_cases text chat_id s :
  let c := BotSendMessage (chat_or_default chat_id) text in
  send_message text chat_id s = (Return false, s) \/
  text <> [] /\
  send_message text chat_id s
    = (Return (bot_api (length (sent s)) c), mkState true (sent s ++ [c])).
Proof.
  destruct text as [|c0 text]; [by left |].
  rewrite send_message_unfold. cbv zeta.
  destruct (_ || _); [by right | by left].
Qed.



Lemma send_weather_report_unfold summary photo_bytes s :
  send_weather_report summary photo_bytes s =
    let '(r1, s1) := send_photo photo_bytes (Some summary) None s in
    match r1 with
    | Return ok1 =>
      if negb ok1 && truthy summary
      then (Return true,
            snd (send_message summary None
                   (snd (send_photo photo_bytes None None s1))))
      else (Return ok1, s1)
    | Raise _ => (Return false, s1)
    end.
Proof.
  unfold Telegram.send_weather_report, try_except, bind.
  destruct (send_photo photo_bytes (Some summary) None s) as [[ok1|e] s1];
    [| done].
  destruct (negb ok1 && truthy summary); [| done].
  destruct (send_photo_returns _chat_id bot_constructor bot_api
              photo_bytes None None s1) as [ok2 H2].
  destruct (send_photo photo_bytes None None s1) as [r2 s2].
  simpl in H2. subst r2. cbn [snd].
  destruct (send_message_returns _chat_id bot_constructor bot_api
              summary None s2) as [ok3 H3].
  destruct (send_message summary None s2) as [r3 s3]. simpl in H3. by subst r3.
Qed.


(** X11. [send_weather_report] returns [True] when the combined send
    succeeded or the summary is not empty, and [False] otherwise: with a
    summary, the outcome of the fallback sends is not looked at. With no
    [Bot] to be had, no request is made at all and the report of a
    non-empty summary is still [True]. *)
Theorem report_result :
  (forall summary photo_bytes s ok1 s1,
     send_photo photo_bytes (Some summary) None s = (Return ok1, s1) ->
     fst (send_weather_report summary photo_bytes s)
       = Return (ok1 || truthy summary)) /\
  (forall summary photo_bytes s,
     _bot s = false -> bot_constructor = false ->
     send_weather_report summary photo_bytes s = (Return (truthy summary), s)).
Proof.
  split.
  - intros summary photo_bytes s ok1 s1 H1.
    rewrite send_weather_report_unfold, H1.
    by destruct ok1, (truthy summary).
  - intros summary photo_bytes s Hbot Hctor.
    assert (Hphoto : forall caption,
              send_photo photo_bytes caption None s = (Return false, s)).
    { intros caption. destruct photo_bytes as [|b photo]; [done |].
      rewrite send_photo_unfold. cbv zeta. by rewrite Hbot, Hctor. }
    assert (Hmsg : send_message summary None s = (Return false, s)).
    { destruct summary as [|c text]; [done |].
      rewrite send_message_unfold. cbv zeta. by rewrite Hbot, Hctor. }
    rewrite send_weather_report_unfold, Hphoto. cbn [negb andb].
    destruct (truthy summary); [| done].
    rewrite Hphoto. cbn [snd]. by rewrite Hmsg.
Qed.

(** X12. A delivery makes at most three requests, in one of four
    shapes: none; the image with the summary as caption; the summary as
    text alone (there are no image bytes); or the image with caption,
    the image alone, then the summary as text. *)
Theorem report_requests summary photo_bytes s :
  exists l,
    sent (snd (send_weather_report summary photo_bytes s)) = sent s ++ l /\
    (l = [] \/
     l = [BotSendPhoto _chat_id photo_bytes (Some summary)] \/
     (photo_bytes = [] /\ l = [BotSendMessage _chat_id summary]) \/
     l = [ BotSendPhoto _chat_id photo_bytes (Some summary);
           BotSendPhoto _chat_id photo_bytes None;
           BotSendMessage _chat_id summary ]).
Proof.
  rewrite send_weather_report_unfold.
  destruct photo_bytes as [|b photo].
  - (* no image bytes *)
    cbn [Telegram.send_photo ret negb andb snd].
    destruct (truthy summary) eqn:Hsum.
    + destruct (send_message_cases summary None s) as [-> | [_ ->]];
        cbn [snd sent Telegram.chat_or_default].
      * exists []. rewrite app_nil_r. auto.
      * eexists. split; [done |]. auto.
    + exists []. rewrite app_nil_r. auto.
  - rewrite (send_photo_unfold _ _ _ b photo (Some summary) None s). cbv zeta.
    cbn [Telegram.chat_or_default].
    destruct (_bot s || bot_constructor) eqn:Hbot.
    + destruct (bot_api _ _) eqn:Hok1; cbn [negb andb snd sent].
      { eexists. split; [done |]. auto. }
      destruct (truthy summary) eqn:Hsum; cbn [snd sent].
      2: { eexists. split; [done |]. auto. }
      rewrite send_photo_unfold. cbv zeta.
      cbn [_bot orb snd sent Telegram.chat_or_default].
      destruct summary as [|c text]; [done |].
      rewrite send_message_unfold. cbv zeta.
      cbn [_bot orb snd sent Telegram.chat_or_default].
      eexists. split; [by rewrite <- !app_assoc |]. auto.
    + cbn [negb andb snd sent]. destruct (truthy summary) eqn:Hsum.
      2: { exists []. rewrite app_nil_r. auto. }
      rewrite send_photo_unfold. cbv zeta. rewrite Hbot. cbn [snd].
      destruct summary as [|c text]; [done |].
      rewrite send_message_unfold. cbv zeta. rewrite Hbot. cbn [snd].
      exists []. rewrite app_nil_r. auto.
Qed.

End DeliveryRequests.

Section Release.

Import Telegram TelegramSession.

Variable session_close : bool.

Abbreviation close := (close session_close).

Lemma close_unfold (t : TelegramSession.state) :
  close t =
    if _bot (client t) then
      if session_close
      then (Return tt,
            mkState (Telegram.mkState false (sent (client t)))
                    (S (session_closes t)))
      else (Raise LibraryError, mkState (client t) (S (session_closes t)))
    else (Return tt, t).
Proof.
  unfold TelegramSession.close, bind, get, modify, ret. simpl.
  destruct (_bot (client t)); [| done]. by destruct session_close.
Qed.

(** X13. Releasing the client is idempotent: when closing the session
    works, a second [close] does nothing, the session having been closed
    once if there was a [Bot] and not at all if there was none; the
    record of requests is untouched. When closing the session raises,
    [close] raises and the [Bot] is kept. *)
Theorem close_idempotent (t : TelegramSession.state) :
  (session_close = true ->
   exists t',
     close t = (Return tt, t') /\
     close t' = (Return tt, t') /\
     _bot (client t') = false /\
     sent (client t') = sent (client t) /\
     session_closes t' =
       session_closes t + (if _bot (client t) then 1 else 0)) /\
  (session_close = false -> _bot (client t) = true ->
   exists t',
     close t = (Raise LibraryError, t') /\ client t' = client t).
Proof.
  split.
  - intros Hclose. destruct (_bot (client t)) eqn:Hbot.
    + exists (mkState (Telegram.mkState false (sent (client t)))
                      (S (session_closes t))).
      rewrite !close_unfold. cbn [client _bot sent session_closes].
      rewrite Hbot, Hclose. repeat split. lia.
    + exists t. rewrite !close_unfold, Hbot. repeat split. lia.
  - intros Hclose Hbot. rewrite close_unfold, Hclose, Hbot. by eexists.
Qed.

End Release.

(* ===================================================================== *)
(** * More on the page extractor                                          *)
(* ===================================================================== *)

Section ExtractorSteps.

Import Browser.

Context {T : Type}.
Variable pg : page.
Variable translate_func : list pystr -> M T (gmap pystr pystr).

Implicit Types (s : state T).

(** [k] rounds of waiting and reading the names again. *)
Abbreviation rereads k := (concat (replicate k [Sleep 300; EvaluateNames])).

(** The names asked of [translate_func] and the records built. *)
Abbreviation names_of raw_data :=
  (List.map name (List.filter (fun r => truthy (name r)) raw_data)).

Abbreviation records_of mapping raw_data :=
  (List.map
     (fun r => mkCityWeather (name r) (default (name r) (mapping !! name r))
                             (normalize_max (max r)) (tile_alt r))
     (List.filter (fun r => truthy (name r)) raw_data)).

(** The number [k] of re-reads is the index of the first reading that
    shows a Cyrillic letter, and 3 when none of the readings 0 to 2
    does. *)
Lemma replace_city_names_reads mapping s reads :
  (forall n, names pg n = Return (reads n)) ->
  exists k,
    k <= 3 /\
    replace_city_names pg mapping s =
      (Return (any_cyrillic (reads k)),
       mkState (events s ++ EvaluateReplace mapping :: rereads k)
               (translator s)) /\
    (forall i, i < k -> any_cyrillic (reads i) = false) /\
    (k < 3 -> any_cyrillic (reads k) = true) /\
    any_cyrillic (reads k) =
      any_cyrillic (reads 0) || any_cyrillic (reads 1)
      || any_cyrillic (reads 2) || any_cyrillic (reads 3).
Proof.
  intros Hreads.
  unfold replace_city_names, verify_retry, bind, call, ret.
  cbn [events translator]. rewrite !Hreads.
  destruct (any_cyrillic (reads 0)) eqn:H0; cbn [orb].
  { exists 0. rewrite H0. split; [lia |]. split; [done |].
    split; [intros i Hi; lia |]. done. }
  destruct (any_cyrillic (reads 1)) eqn:H1; cbn [orb].
  { exists 1. rewrite H1. split; [lia |].
    split; [simpl; rewrite <- ?app_assoc; simpl; reflexivity |].
    split; [| done]. intros i Hi. by replace i with 0 by lia. }
  destruct (any_cyrillic (reads 2)) eqn:H2; cbn [orb].
  { exists 2. rewrite H2. split; [lia |].
    split; [simpl; rewrite <- ?app_assoc; simpl; reflexivity |].
    split; [| done]. intros [|[|i]] Hi; [done | done | lia]. }
  exists 3. split; [lia |].
  split; [by destruct (any_cyrillic (reads 3));
             simpl; rewrite <- ?app_assoc; simpl |].
  split; [| split; [lia | done]].
  intros [|[|[|i]]] Hi; [done | done | done | lia].
Qed.

(** X14. The check of the injected names reads the name elements at
    most four times: once as the return value of the injection, then up
    to three times, each after a sleep of 0.3 s. It stops at the first
    reading that shows a Cyrillic letter: no reading before the last
    one made shows one, and when fewer than three re-reads were made
    the last one does. It returns whether the last reading made shows a
    Cyrillic letter, which is whether any of the four would. *)
Theorem dom_verification mapping s reads :
  (forall n, names pg n = Return (reads n)) ->
  exists k,
    k <= 3 /\
    replace_city_names pg mapping s =
      (Return (any_cyrillic (reads k)),
       mkState (events s ++ EvaluateReplace mapping :: rereads k)
               (translator s)) /\
    (forall i, i < k -> any_cyrillic (reads i) = false) /\
    (k < 3 -> any_cyrillic (reads k) = true) /\
    any_cyrillic (reads k) =
      any_cyrillic (reads 0) || any_cyrillic (reads 1)
      || any_cyrillic (reads 2) || any_cyrillic (reads 3).
Proof. apply replace_city_names_reads. Qed.

(** [process] once the page is open and tiles were found. *)
Lemma process_after_scrape s r0 raw :
  launch_page pg = Return tt -> goto pg = Return tt ->
  wait_for_selector pg = Return tt ->
  scraped pg = Return (r0 :: raw) ->
  process pg translate_func s =
    let s0 := mkState (events s ++ opening) (translator s) in
    let '(rt, t') := translate_func (names_of (r0 :: raw)) (translator s) in
    let s1 := mkState (events s0 ++ [Translate (names_of (r0 :: raw))]) t' in
    match rt with
    | Raise e => (Raise e, s1)
    | Return mapping =>
      match replace_city_names pg mapping s1 with
      | (Raise e, s2) => (Raise e, s2)
      | (Return _, s2) =>
        match add_style_tag pg with
        | Raise e => (Raise e, mkState (events s2 ++ [AddStyleTag]) (translator s2))
        | Return _ =>
          match screenshot pg with
          | Raise e =>
              (Raise e,
               mkState (events s2 ++ [AddStyleTag; Screenshot]) (translator s2))
          | Return shot =>
              (match close pg with
               | Raise e => Raise e
               | Return _ => Return (records_of mapping (r0 :: raw), shot)
               end,
               mkState (events s2 ++ [AddStyleTag; Screenshot; BrowserClose])
                       (translator s2))
          end
        end
      end
    end.
Proof.
  intros Hl Hg Hw Hscr.
  unfold process, scrape_weather_data, bind, call, call_translate, raise, ret.
  cbn [events translator]. rewrite Hl, Hg, Hw, Hscr. cbv zeta.
  cbn [events translator]. unfold opening.
  rewrite <- !app_assoc. cbn [app].
  destruct (translate_func _ _) as [[mapping|e] t']; [| done].
  destruct (replace_city_names pg mapping _) as [[dom_ok|e] s2]; [| done].
  unfold apply_styles, capture_screenshot, call. cbn [events translator].
  destruct (add_style_tag pg) as [[]|e]; [| done].
  destruct (screenshot pg) as [shot|e]; [| by rewrite <- !app_assoc].
  rewrite <- !app_assoc. by destruct (close pg) as [[]|e].
Qed.

(** X15. When its collaborators return, [process] returns the records
    whether or not the injected names ever show a Cyrillic letter. It
    calls the translate capability exactly once, with the names of the
    named tiles in page order, then injects, re-reads the names up to
    three times, styles, takes the screenshot and closes the browser, in
    that order. *)
Theorem process_steps s r0 raw mapping t' reads shot :
  launch_page pg = Return tt -> goto pg = Return tt ->
  wait_for_selector pg = Return tt ->
  scraped pg = Return (r0 :: raw) ->
  translate_func (names_of (r0 :: raw)) (translator s) = (Return mapping, t') ->
  (forall n, names pg n = Return (reads n)) ->
  add_style_tag pg = Return tt -> screenshot pg = Return shot ->
  close pg = Return tt ->
  exists k,
    k <= 3 /\
    process pg translate_func s =
      (Return (records_of mapping (r0 :: raw), shot),
       mkState
         (events s ++ opening
          ++ [Translate (names_of (r0 :: raw)); EvaluateReplace mapping]
          ++ rereads k ++ [AddStyleTag; Screenshot; BrowserClose])
         t').
Proof.
  intros Hl Hg Hw Hscr Htr Hreads Hst Hshot Hcl.
  rewrite (process_after_scrape s r0 raw Hl Hg Hw Hscr). cbv zeta.
  rewrite Htr.
  match goal with
  | |- context [replace_city_names pg mapping ?s1] =>
      destruct (replace_city_names_reads mapping s1 reads Hreads)
        as (k & Hk & -> & _)
  end.
  rewrite Hst, Hshot, Hcl. exists k. split; [done |].
  cbn [events translator]. by rewrite <- !app_assoc.
Qed.

(** X16. When the translate capability raises, [process] raises the
    same exception right after that call: the page is not modified, no
    screenshot is taken, the browser is not closed by [process]. *)
Theorem translate_error_aborts_process s r0 raw e t' :
  launch_page pg = Return tt -> goto pg = Return tt ->
  wait_for_selector pg = Return tt ->
  scraped pg = Return (r0 :: raw) ->
  translate_func (names_of (r0 :: raw)) (translator s) = (Raise e, t') ->
  process pg translate_func s =
    (Raise e,
     mkState (events s ++ opening ++ [Translate (names_of (r0 :: raw))]) t').
Proof.
  intros Hl Hg Hw Hscr Htr.
  rewrite (process_after_scrape s r0 raw Hl Hg Hw Hscr). cbv zeta.
  rewrite Htr. cbn [events]. by rewrite <- !app_assoc.
Qed.

(** The check of the names leaves the translate capability alone. *)
Lemma replace_city_names_translator mapping s r s2 :
  replace_city_names pg mapping s = (r, s2) -> translator s2 = translator s.
Proof.
  assert (Hretry : forall n i s0 r0 s3,
            verify_retry pg n i s0 = (r0, s3) -> translator s3 = translator s0).
  { induction n as [|n IH]; intros i s0 r0 s3; simpl.
    - by intros [= _ <-].
    - unfold bind, call. cbn [events translator].
      destruct (names pg (S i)) as [ns|e]; [| by intros [= _ <-]].
      destruct (any_cyrillic ns); [by intros [= _ <-] |].
      intros Hv. by apply IH in Hv. }
  unfold replace_city_names, bind, call. cbn [events translator].
  destruct (names pg 0) as [ns|e]; [| by intros [= _ <-]].
  destruct (any_cyrillic ns); [by intros [= _ <-] |].
  intros Hv. by apply Hretry in Hv.
Qed.

(** What a returning [process] went through. *)
Lemma process_returns_inv s wd shot s' :
  process pg translate_func s = (Return (wd, shot), s') ->
  exists raw_data mapping t',
    scraped pg = Return raw_data /\
    translate_func (names_of raw_data) (translator s) = (Return mapping, t') /\
    wd = records_of mapping raw_data /\
    translator s' = t'.
Proof.
  destruct (launch_page pg) as [[]|e1] eqn:Hl.
  2: { unfold process, bind, call. cbn. by rewrite Hl. }
  destruct (goto pg) as [[]|e2] eqn:Hg.
  2: { unfold process, bind, call. cbn. by rewrite Hl, Hg. }
  destruct (wait_for_selector pg) as [[]|e3] eqn:Hw.
  2: { unfold process, bind, call. cbn. by rewrite Hl, Hg, Hw. }
  destruct (scraped pg) as [[|r0 raw]|e4] eqn:Hscr.
  1, 3: unfold process, scrape_weather_data, bind, call, raise; cbn;
        by rewrite Hl, Hg, Hw, Hscr.
  rewrite (process_after_scrape s r0 raw Hl Hg Hw Hscr). cbv zeta.
  destruct (translate_func _ _) as [[mapping|e] t'] eqn:Htr; [| done].
  destruct (replace_city_names pg mapping _) as [[dom_ok|e] s2] eqn:Hrep;
    [| done].
  apply replace_city_names_translator in Hrep. simpl in Hrep.
  destruct (add_style_tag pg) as [[]|e]; [| done].
  destruct (screenshot pg) as [shot0|e]; [| done].
  destruct (close pg) as [[]|e]; [| done].
  intros [= <- <- <-]. exists (r0 :: raw), mapping, t'. by repeat split.
Qed.

End ExtractorSteps.

(* ===================================================================== *)
(** * Extraction and translation together                                 *)
(* ===================================================================== *)

Section TranslatedRecords.

Import Browser.

Variable pg : page.
Variable chat_endpoint : nat -> list pystr -> Ai.chat_result.
Variable json_loads : pystr -> Ai.loads_result.
Variable max_retries : Z.

Lemma normalize_max_not_dash m : normalize_max m <> py "-".
Proof.
  unfold normalize_max. destruct (decide (m = py "-")) as [_|Hm]; [| done].
  intros H. vm_compute in H. discriminate H.
Qed.

(** X17. With [DeepSeekClient.translate] as the capability and a cache
    whose values all hold a Cyrillic letter, every record that [process]
    returns has a non-empty source name, a Russian name that holds a
    Cyrillic letter or else is the source name itself, and a maximum
    temperature that is never the placeholder "-"; the cache still has
    only values with a Cyrillic letter. *)
Theorem records_translated_or_kept (s : state Ai.state) wd shot s' :
  map_Forall (fun _ v => cyrillic_search v = true)
             (Ai.CITY_TRANSLATIONS (translator s)) ->
  process pg
    (fun jp_names => Ai.translate chat_endpoint json_loads jp_names max_retries)
    s = (Return (wd, shot), s') ->
  Forall (fun r => truthy (jp r) = true /\
                   (ru r = jp r \/ cyrillic_search (ru r) = true) /\
                   max_c r <> py "-") wd /\
  map_Forall (fun _ v => cyrillic_search v = true)
             (Ai.CITY_TRANSLATIONS (translator s')).
Proof.
  intros Hvalid Hp.
  apply process_returns_inv in Hp
    as (raw_data & mapping & t' & _ & Htr & -> & ->).
  split.
  - apply Forall_forall. intros r Hr.
    apply list_elem_of_In, in_map_iff in Hr as (tl & <- & Htl).
    apply filter_In in Htl as [_ Hname]. cbn [jp ru max_c].
    split; [done |]. split; [| apply normalize_max_not_dash].
    destruct (mapping !! name tl) as [v|] eqn:Hv; simpl; [| by left].
    destruct (translate_value_origin _ _ _ _ _ _ _ Hvalid Htr _ _ Hv)
      as [_ [-> | Hc]]; [by left | by right].
  - pose proof (script_valid_preserved chat_endpoint json_loads
                  (List.map name (List.filter (fun r => truthy (name r)) raw_data))
                  max_retries (translator s) Hvalid) as Hvalid'.
    by rewrite Htr in Hvalid'.
Qed.

End TranslatedRecords.

(* ===================================================================== *)
(** * The workflow                                                        *)
(* ===================================================================== *)

Section Workflow.

Import Reporter.

Variable pg : Browser.page.
Variable chat_endpoint : nat -> list pystr -> Ai.chat_result.
Variable json_loads : pystr -> Ai.loads_result.
Variable _api_key : pystr.
Variable endpoint : nat -> Summary.request -> Ai.chat_result.
Variable current_date : pystr.
Variable json_dumps : list Summary.payload_entry -> pystr.
Variable _chat_id : pystr.
Variable bot_constructor : bool.
Variable bot_api : nat -> Telegram.api_call -> bool.
Variable session_close : bool.

Abbreviation run :=
  (run pg chat_endpoint json_loads _api_key endpoint current_date json_dumps
       _chat_id bot_constructor bot_api session_close).
Abbreviation extract :=
  (Browser.process pg (translate chat_endpoint json_loads)).
Abbreviation build :=
  (Summary.build_weather_summary _api_key endpoint current_date json_dumps).
Abbreviation rephrase := (Summary.rephrase_weather_summary _api_key endpoint).
Abbreviation deliver :=
  (Telegram.send_weather_report _chat_id bot_constructor bot_api).
Abbreviation close := (TelegramSession.close session_close).
Abbreviation attempt :=
  (attempt pg chat_endpoint json_loads _api_key endpoint current_date
           json_dumps _chat_id bot_constructor bot_api).

Implicit Types (w : world).

Lemma run_unfold w :
  run w =
    let '(ok, w1) := attempt w in
    match close (telegram w1) with
    | (Return _, t2) => (Return ok, mkWorld (browser w1) (summaries w1) t2)
    | (Raise e, t2) => (Raise e, mkWorld (browser w1) (summaries w1) t2)
    end.
Proof.
  unfold Reporter.run, try_finally, try_except, Reporter.attempt, bind, ret,
    on_browser, on_summaries, on_telegram, on_client, delivered.
  destruct (extract (browser w)) as [[[[|r wd] shot]|e] b];
    cbn [browser summaries telegram].
  1, 3: by destruct (TelegramSession.close _ _) as [[[]|e'] t2].
  destruct (build _ _) as [[initial|e] a1];
    cbn [browser summaries telegram].
  2: by destruct (TelegramSession.close _ _) as [[[]|e'] t2].
  destruct (rephrase _ _) as [[summary|e] a2];
    cbn [browser summaries telegram].
  2: by destruct (TelegramSession.close _ _) as [[[]|e'] t2].
  destruct (deliver _ _ _) as [[ok|e] c3];
    cbn [browser summaries telegram];
    by destruct (TelegramSession.close _ _) as [[[]|e'] t2].
Qed.

(** [close] touches neither the requests sent nor, when it returns,
    leaves a [Bot]. *)
Lemma close_sent (t : TelegramSession.state) :
  Telegram.sent (TelegramSession.client (snd (close t)))
    = Telegram.sent (TelegramSession.client t).
Proof.
  rewrite close_unfold.
  destruct (Telegram._bot _); [| done]. by destruct session_close.
Qed.

Lemma run_sent w :
  Telegram.sent (TelegramSession.client (telegram (snd (run w))))
    = Telegram.sent (TelegramSession.client (telegram (snd (attempt w)))).
Proof.
  rewrite run_unfold. destruct (attempt w) as [ok w1]. cbn [snd].
  rewrite <- (close_sent (telegram w1)).
  by destruct (close (telegram w1)) as [[[]|e] t2].
Qed.

Lemma run_summaries w :
  summaries (snd (run w)) = summaries (snd (attempt w)).
Proof.
  rewrite run_unfold. destruct (attempt w) as [ok w1].
  by destruct (close (telegram w1)) as [[[]|e] t2].
Qed.

Lemma run_result w :
  session_close = true -> fst (run w) = Return (fst (attempt w)).
Proof.
  intros Hclose. rewrite run_unfold. destruct (attempt w) as [ok w1].
  rewrite close_unfold, Hclose. by destruct (Telegram._bot _).
Qed.



(** X19. When the extraction raises or returns no record, nothing is
    asked of the summary generator and nothing is sent to Telegram, and
    [run] returns [False]. *)
Theorem run_without_records w :
  (forall wd shot, fst (extract (browser w)) = Return (wd, shot) -> wd = []) ->
  summaries (snd (run w)) = summaries w /\
  Telegram.sent (TelegramSession.client (telegram (snd (run w))))
    = Telegram.sent (TelegramSession.client (telegram w)) /\
  (session_close = true -> fst (run w) = Return false).
Proof.
  intros Hnone.
  assert (Hatt : exists b,
            attempt w = (false, mkWorld b (summaries w) (telegram w))).
  { unfold Reporter.attempt.
    destruct (extract (browser w)) as [[[[|r wd] shot]|e] b];
      [by eexists | | by eexists].
    by specialize (Hnone (r :: wd) shot eq_refl). }
  destruct Hatt as [b Hatt].
  rewrite run_summaries, run_sent, Hatt. split; [done |]. split; [done |].
  intros Hclose. by rewrite (run_result w Hclose), Hatt.
Qed.

(** X20. When building the summary or rephrasing it raises, [run]
    returns [False] and nothing is sent to Telegram. *)
Theorem generation_error_stops_run w r wd shot b e :
  extract (browser w) = (Return (r :: wd, shot), b) ->
  (fst (build (_prepare_weather_data (r :: wd)) (summaries w)) = Raise e \/
   exists initial a1,
     build (_prepare_weather_data (r :: wd)) (summaries w)
       = (Return initial, a1) /\
     fst (rephrase initial a1) = Raise e) ->
  Telegram.sent (TelegramSession.client (telegram (snd (run w))))
    = Telegram.sent (TelegramSession.client (telegram w)) /\
  (session_close = true -> fst (run w) = Return false).
Proof.
  intros Hex Hgen.
  assert (Hatt : exists a, attempt w = (false, mkWorld b a (telegram w))).
  { unfold Reporter.attempt. rewrite Hex.
    destruct Hgen as [Hb | (initial & a1 & Hb & Hr)].
    - destruct (build _ _) as [[initial|e0] a1]; [done | by eexists].
    - rewrite Hb. destruct (rephrase _ _) as [[summary|e0] a2];
        [done | by eexists]. }
  destruct Hatt as [a Hatt].
  rewrite run_sent, Hatt. split; [done |].
  intros Hclose. by rewrite (run_result w Hclose), Hatt.
Qed.


End Workflow.

(* ===================================================================== *)
(** * Configuration                                                       *)
(* ===================================================================== *)

Section Settings.

Import Ai Config.

Variable _config : gmap pystr section_value.
Variable environ : gmap pystr pystr.

Abbreviation get := (get _config).
Abbreviation get_or_environ := (get_or_environ _config environ).
Abbreviation telegram_bot_token := (telegram_bot_token _config environ).
Abbreviation telegram_chat_id := (telegram_chat_id _config environ).
Abbreviation telegram_client_init := (telegram_client_init _config environ).

Abbreviation stored := (stored _config).

Lemma get_or_environ_cases section key name :
  _config !! section <> Some NotDict ->
  get_or_environ section key name =
    match stored section key with
    | Some v =>
        if json_truthy v then Value v
        else Value (JStr (default [] (environ !! name)))
    | None => Value (JStr (default [] (environ !! name)))
    end.
Proof.
  unfold Config.get_or_environ, Config.get, Config.stored. intros Hdict.
  destruct (_config !! section) as [[d|]|]; [| done | done].
  by destruct (d !! key).
Qed.

(** X22. A credential is read from the configuration file first: a
    truthy value stored there is returned whatever the environment
    holds. When the file has no such section or key, or a falsy value
    (null, the empty string), the environment variable is returned, and
    the empty string when that is not set either. *)
Theorem credential_precedence section key name :
  _config !! section <> Some NotDict ->
  (forall v, stored section key = Some v -> json_truthy v = true ->
             get_or_environ section key name = Value v) /\
  ((forall v, stored section key = Some v -> json_truthy v = false) ->
   get_or_environ section key name
     = Value (JStr (default [] (environ !! name)))).
Proof.
  intros Hdict. rewrite (get_or_environ_cases _ _ _ Hdict). split.
  - intros v -> Hv. by rewrite Hv.
  - intros Hfalsy. destruct (stored section key) as [v|]; [| done].
    by rewrite (Hfalsy v eq_refl).
Qed.

(** X23. [TelegramClient()] yields a client only with a truthy bot token
    and a truthy chat id. With no [telegram] section in the file, both
    come from the environment: it raises [ValueError] for the token
    when [TELEGRAM_BOT_TOKEN] is unset or empty, whatever the chat id,
    and otherwise for the chat id when [TELEGRAM_CHAT_ID] is unset or
    empty. *)
Theorem telegram_client_needs_credentials :
  (forall tok cid,
     telegram_client_init = Client tok cid ->
     telegram_bot_token = Value tok /\ telegram_chat_id = Value cid /\
     json_truthy tok = true /\ json_truthy cid = true) /\
  (_config !! py "telegram" = None ->
   telegram_client_init =
     match environ !! py "TELEGRAM_BOT_TOKEN" with
     | Some (c :: tok) =>
       match environ !! py "TELEGRAM_CHAT_ID" with
       | Some (d :: cid) => Client (JStr (c :: tok)) (JStr (d :: cid))
       | _ => InitValueError "Telegram chat ID is not set"
       end
     | _ => InitValueError "Telegram bot token is not set"
     end).
Proof.
  split.
  - intros tok cid. unfold Config.telegram_client_init.
    destruct telegram_bot_token as [tok0|]; [| done].
    destruct telegram_chat_id as [cid0|]; [| done].
    destruct (json_truthy tok0) eqn:Htok; [| done].
    destruct (json_truthy cid0) eqn:Hcid; [| done].
    by intros [= <- <-].
  - intros Hnone.
    unfold Config.telegram_client_init, Config.telegram_bot_token,
      Config.telegram_chat_id, Config.get_or_environ, Config.get.
    rewrite Hnone. cbn [json_truthy].
    destruct (environ !! py "TELEGRAM_BOT_TOKEN") as [[|c tok]|],
             (environ !! py "TELEGRAM_CHAT_ID") as [[|d cid]|]; done.
Qed.

End Settings.

(* ===================================================================== *)
(** * The further properties on the scenarios                             *)
(* ===================================================================== *)

Section MoreScenarios.

Import TranslateScenario DeliveryScenario PageScenario WorkflowScenario.

Ltac seeded_valid := apply map_Forall_to_list; vm_compute; repeat constructor.

(** X1 for two seeded cities and an empty name, with the endpoint down. *)
Lemma translate_cached_without_call_witness :
  exists m,
    Ai.translate endpoint_down nothing_parses [py "東京"; []; py "札幌"] 2 seeded
      = (Return m, seeded) /\
    dom m = list_to_set [py "東京"; []; py "札幌"] /\
    forall t v, t ∈ [py "東京"; []; py "札幌"] ->
                Ai.CITY_TRANSLATIONS seeded !! t = Some v -> m !! t = Some v.
Proof.
  apply translate_cached_without_call.
  constructor; [right; eexists; vm_compute; reflexivity |].
  constructor; [by left |].
  constructor; [right; eexists; vm_compute; reflexivity |].
  constructor.
Defined.

(** X2 with [max_retries = -1]: the unknown city is not asked for. *)
Lemma translate_bounded_calls_witness :
  length (Ai.chat_calls
            (snd (Ai.translate partial_endpoint partial_loads [py "京都"]
                               (-1) seeded)))
    <= length (Ai.chat_calls seeded) + Z.to_nat (-1 + 1) /\
  Ai.translate partial_endpoint partial_loads [py "京都"] (-1) seeded
    = (Return (Ai.lookup_all [py "京都"] (Ai.CITY_TRANSLATIONS seeded)), seeded).
Proof.
  destruct (translate_bounded_calls partial_endpoint partial_loads
              [py "京都"] (-1) seeded) as [Hcalls Hnone].
  split; [exact Hcalls | apply Hnone; lia].
Defined.

(** X3 at the first call of the stubborn run: the seeded "東京" is not
    asked for. *)
Lemma translate_requests_witness :
  [py "京都"; py "奈良"] <> [] /\
  (0 = length (Ai.chat_calls seeded) ->
   [py "京都"; py "奈良"]
     = Ai.to_do_of [py "京都"; py "奈良"; py "東京"]
                   (Ai.CITY_TRANSLATIONS seeded) /\
   forall t, t ∈ [py "京都"; py "奈良"] <->
             t ∈ [py "京都"; py "奈良"; py "東京"] /\ t <> [] /\
             Ai.CITY_TRANSLATIONS seeded !! t = None).
Proof.
  apply (translate_requests stubborn_endpoint stubborn_loads
           [py "京都"; py "奈良"; py "東京"] 2 seeded 0 [py "京都"; py "奈良"]).
  - simpl. lia.
  - vm_compute. reflexivity.
Defined.

(** X4 at the stubborn run. *)
Lemma translate_values_witness :
  exists m s',
    Ai.translate stubborn_endpoint stubborn_loads
      [py "京都"; py "奈良"; py "東京"] 2 seeded = (Return m, s') /\
    forall t v, m !! t = Some v ->
      t ∈ [py "京都"; py "奈良"; py "東京"] /\
      (v = t \/ cyrillic_search v = true).
Proof.
  eexists _, _. split; [vm_compute; reflexivity |].
  eapply (translate_values stubborn_endpoint stubborn_loads
            [py "京都"; py "奈良"; py "東京"] 2 seeded).
  - seeded_valid.
  - vm_compute. reflexivity.
Defined.

(** X5 when the answer gives "奈良" and leaves "京都" out. *)
Lemma translate_stops_without_rejects_witness :
  exists m s',
    Ai.translate partial_endpoint partial_loads [py "京都"; py "奈良"] 2 seeded
      = (Return m, s') /\
    Ai.chat_calls s' =
      Ai.chat_calls seeded
      ++ [Ai.to_do_of [py "京都"; py "奈良"] (Ai.CITY_TRANSLATIONS seeded)] /\
    forall t, t ∈ [py "京都"; py "奈良"] ->
              t ∉ List.map fst [(py "奈良", Ai.JStr (py "Нара"))] ->
              Ai.CITY_TRANSLATIONS seeded !! t = None -> m !! t = Some t.
Proof.
  apply (translate_stops_without_rejects partial_endpoint partial_loads
           [py "京都"; py "奈良"] 2 seeded nara_only_object
           [(py "奈良", Ai.JStr (py "Нара"))]).
  - lia.
  - intros H. vm_compute in H. discriminate H.
  - reflexivity.
  - vm_compute. reflexivity.
  - vm_compute. reflexivity.
  - repeat constructor. eexists. split; [reflexivity | vm_compute; reflexivity].
Defined.

Example partial_answer_run :
  let out := Ai.translate partial_endpoint partial_loads
               [py "京都"; py "奈良"] 2 seeded in
  (exists m, fst out = Return m /\
     m !! py "京都" = Some (py "京都") /\ m !! py "奈良" = Some (py "Нара")) /\
  Ai.chat_calls (snd out) = [[py "京都"; py "奈良"]].
Proof.
  split; [| by vm_compute].
  eexists. split; [vm_compute; reflexivity |]. by vm_compute.
Qed.

(** X6 when the response holds an integer of 4301 digits: [json.loads]
    raises [ValueError], and so does [translate]. *)
Lemma translate_raises_only_witness :
  Ai.CITY_TRANSLATIONS
    (snd (Ai.translate overlong_endpoint overlong_loads [py "京都"] 2 seeded))
    = Ai.CITY_TRANSLATIONS seeded /\
  exists calls last,
    Ai.chat_calls
      (snd (Ai.translate overlong_endpoint overlong_loads [py "京都"] 2 seeded))
      = Ai.chat_calls seeded ++ calls ++ [last] /\
    Ai.fails_with overlong_endpoint overlong_loads
      (length (Ai.chat_calls seeded) + length calls) last
      (ValueError "Exceeds the limit (4300 digits) for integer string conversion: value has 4301 digits; use sys.set_int_max_str_digits() to increase the limit").
Proof.
  apply translate_raises_only. vm_compute. reflexivity.
Defined.

Example overlong_integer_run :
  let out := Ai.translate overlong_endpoint overlong_loads
               [py "京都"] 2 seeded in
  (exists msg, fst out = Raise (ValueError msg)) /\
  Ai.chat_calls (snd out) = [[py "京都"]] /\
  Ai.CITY_TRANSLATIONS (snd out) = Ai.CITY_TRANSLATIONS seeded.
Proof.
  split; [eexists; vm_compute; reflexivity |]. by vm_compute.
Qed.

Example number_candidate_run :
  let out := Ai.translate number_endpoint number_loads [py "京都"] 2 seeded in
  fst out = Raise TypeError /\
  Ai.chat_calls (snd out) = [[py "京都"]] /\
  Ai.CITY_TRANSLATIONS (snd out) = Ai.CITY_TRANSLATIONS seeded.
Proof. by vm_compute. Qed.

Example flaky_run_fails_at_second_call :
  Ai.fails_with flaky_endpoint kyoto_loads 1 [py "京都"]
    (RuntimeError "DeepSeek API request failed: timeout").
Proof. by left. Qed.

(** X7: the same record classified as sunny and as rain. *)
Lemma summary_ignores_condition_witness :
  Summary.build_weather_summary api_key padded_endpoint date dumps
    [tokyo_as (py "солнечно")] (Summary.mkState [])
  = Summary.build_weather_summary api_key padded_endpoint date dumps
      [tokyo_as (py "дождь")] (Summary.mkState []).
Proof.
  apply summary_ignores_condition. by repeat constructor.
Defined.

(** X8 with an empty key. *)
Lemma no_api_key_no_request_witness :
  Summary.build_weather_summary [] padded_endpoint date dumps
    [tokyo_as (py "солнечно")] (Summary.mkState [])
    = (Raise (ValueError "DeepSeek API key is not set"), Summary.mkState []) /\
  Summary.rephrase_weather_summary [] padded_endpoint (py "Токио: +32.")
    (Summary.mkState [])
    = (Raise (ValueError "DeepSeek API key is not set"), Summary.mkState []).
Proof.
  destruct (no_api_key_no_request [] padded_endpoint date dumps eq_refl)
    as [Hbuild Hrephrase].
  split; [apply Hbuild | apply Hrephrase; vm_compute; reflexivity].
Defined.

(** X9 for the padded answer. *)
Lemma generated_text_is_stripped_witness :
  exists r s',
    Summary.build_weather_summary api_key padded_endpoint date dumps
      [tokyo_as (py "солнечно")] (Summary.mkState []) = (Return r, s') /\
    r = py "В Токио солнечно, +32°C." /\
    strip r = r /\
    forall c, head r = Some c \/ last r = Some c -> isspace c = false.
Proof.
  eexists _, _. split; [vm_compute; reflexivity |].
  split; [vm_compute; reflexivity |].
  apply (proj1 (generated_text_is_stripped api_key padded_endpoint date dumps)
           [tokyo_as (py "солнечно")] (Summary.mkState []) _
           (Summary.mkState
              [Summary.mkRequest
                 [Summary.mkMessage (py "system")
                    (Summary.WEATHER_SUMMARY_SYSTEM_PROMPT date);
                  Summary.mkMessage (py "user")
                    (Summary.WEATHER_SUMMARY_USER_PROMPT
                     ++ dumps (Summary.payload_of [tokyo_as (py "солнечно")]))]
                 7])).
  vm_compute. reflexivity.
Defined.

(** A message for another chat than the configured one. *)
Example message_to_other_chat :
  Telegram.send_message channel true api_up (py "Дождь.")
    (Some (py "@tokyo_weather")) fresh =
    (Return true,
     Telegram.mkState true
       [Telegram.BotSendMessage (py "@tokyo_weather") (py "Дождь.")]) /\
  Telegram.send_message channel true api_up (py "Дождь.") (Some []) fresh =
    (Return true,
     Telegram.mkState true [Telegram.BotSendMessage channel (py "Дождь.")]).
Proof. split; vm_compute; reflexivity. Qed.

(** X11 with no [Bot] to be had: nothing is sent, the report is [True]. *)
Lemma report_result_witness :
  Telegram.send_weather_report channel false api_up (py "Дождь.") png fresh
    = (Return (truthy (py "Дождь.")), fresh).
Proof.
  apply (proj2 (report_result channel false api_up)); reflexivity.
Defined.

(** X13 for a client that holds a [Bot]. *)
Lemma close_idempotent_witness :
  exists t',
    TelegramSession.close true busy = (Return tt, t') /\
    TelegramSession.close true t' = (Return tt, t') /\
    Telegram._bot (TelegramSession.client t') = false /\
    Telegram.sent (TelegramSession.client t')
      = Telegram.sent (TelegramSession.client busy) /\
    TelegramSession.session_closes t' =
      TelegramSession.session_closes busy
      + (if Telegram._bot (TelegramSession.client busy) then 1 else 0).
Proof.
  apply (proj1 (close_idempotent true busy)). reflexivity.
Defined.

(** X14 on the page where the third reading shows the Russian names. *)
Lemma dom_verification_witness :
  exists k,
    k <= 3 /\
    Browser.replace_city_names late_page ∅ start =
      (Return (Browser.any_cyrillic (russian_reads k)),
       Browser.mkState
         (Browser.events start
          ++ Browser.EvaluateReplace ∅
             :: concat (replicate k [Browser.Sleep 300; Browser.EvaluateNames]))
         (Browser.translator start)) /\
    (forall i, i < k -> Browser.any_cyrillic (russian_reads i) = false) /\
    (k < 3 -> Browser.any_cyrillic (russian_reads k) = true) /\
    Browser.any_cyrillic (russian_reads k) =
      Browser.any_cyrillic (russian_reads 0)
      || Browser.any_cyrillic (russian_reads 1)
      || Browser.any_cyrillic (russian_reads 2)
      || Browser.any_cyrillic (russian_reads 3).
Proof.
  apply (dom_verification late_page ∅ start russian_reads).
  intros n. reflexivity.
Defined.

Example late_page_check :
  Browser.replace_city_names late_page ∅ start =
    (Return true,
     Browser.mkState
       [ Browser.EvaluateReplace ∅;
         Browser.Sleep 300; Browser.EvaluateNames;
         Browser.Sleep 300; Browser.EvaluateNames ]
       seeded).
Proof. vm_compute. reflexivity. Qed.

(** X15 on a page with two seeded cities whose names never read back in
    Russian: the records are returned all the same. *)
Lemma process_steps_witness :
  exists k mapping,
    k <= 3 /\
    Browser.process tokyo_page offline_translate start =
      (Return ([ Browser.mkCityWeather (py "東京") (py "Токио") (py "32")
                                       (py "晴れ");
                 Browser.mkCityWeather (py "札幌") (py "Саппоро") []
                                       (py "雨") ], png),
       Browser.mkState
         (Browser.opening
          ++ [Browser.Translate [py "東京"; py "札幌"];
              Browser.EvaluateReplace mapping]
          ++ concat (replicate k [Browser.Sleep 300; Browser.EvaluateNames])
          ++ [Browser.AddStyleTag; Browser.Screenshot; Browser.BrowserClose])
         seeded).
Proof.
  destruct (process_steps tokyo_page offline_translate start
              (Browser.mkTile (py "東京") (py "晴れ") (py "32"))
              [Browser.mkTile (py "札幌") (py "雨") (py "-")]
              (Ai.lookup_all [py "東京"; py "札幌"] Ai.CITY_TRANSLATIONS_seed)
              seeded (fun _ => [py "東京"; py "札幌"]) png)
    as (k & Hk & Hp);
    [ reflexivity | reflexivity | reflexivity | reflexivity
    | vm_compute; reflexivity | intros n; reflexivity
    | reflexivity | reflexivity | reflexivity | ].
  exists k, (Ai.lookup_all [py "東京"; py "札幌"] Ai.CITY_TRANSLATIONS_seed).
  split; [exact Hk |]. rewrite Hp. vm_compute. reflexivity.
Defined.

(** X16 for a city that is not seeded, with the endpoint down. *)
Lemma translate_error_aborts_process_witness :
  Browser.process kyoto_page offline_translate start =
    (Raise (RuntimeError "DeepSeek API error: 503 - Service Unavailable"),
     Browser.mkState (Browser.opening ++ [Browser.Translate [py "京都"]])
                     (Ai.mkState Ai.CITY_TRANSLATIONS_seed [[py "京都"]])).
Proof.
  rewrite (translate_error_aborts_process kyoto_page offline_translate start
             (Browser.mkTile (py "京都") (py "くもり") (py "30")) []
             (RuntimeError "DeepSeek API error: 503 - Service Unavailable")
             (Ai.mkState Ai.CITY_TRANSLATIONS_seed [[py "京都"]]));
    [ vm_compute; reflexivity | reflexivity | reflexivity | reflexivity
    | reflexivity | vm_compute; reflexivity ].
Defined.

(** X17 on the page with a nameless tile and a seeded city without a
    temperature. *)
Lemma records_translated_or_kept_witness :
  exists wd shot s',
    Browser.process mixed_page
      (fun jp_names =>
         Ai.translate endpoint_down nothing_parses jp_names 2) start
      = (Return (wd, shot), s') /\
    wd = [Browser.mkCityWeather (py "東京") (py "Токио") []
                                (py "くもり時々雨")] /\
    Forall (fun r => truthy (Browser.jp r) = true /\
                     (Browser.ru r = Browser.jp r \/
                      cyrillic_search (Browser.ru r) = true) /\
                     Browser.max_c r <> py "-") wd /\
    map_Forall (fun _ v => cyrillic_search v = true)
               (Ai.CITY_TRANSLATIONS (Browser.translator s')).
Proof.
  eexists _, _, _. split; [vm_compute; reflexivity |].
  split; [vm_compute; reflexivity |].
  eapply (records_translated_or_kept mixed_page endpoint_down nothing_parses 2
            start).
  - seeded_valid.
  - vm_compute. reflexivity.
Defined.


Example delivered_run :
  let out := Reporter.run tokyo_page endpoint_down nothing_parses api_key
               padded_endpoint date dumps channel true api_up true
               fresh_world in
  fst out = Return true /\
  Telegram.sent (TelegramSession.client (Reporter.telegram (snd out)))
    = [Telegram.BotSendPhoto channel png
         (Some (py "В Токио солнечно, +32°C."))] /\
  length (Summary.requests (Reporter.summaries (snd out))) = 2 /\
  TelegramSession.session_closes (Reporter.telegram (snd out)) = 1.
Proof. vm_compute. repeat split; reflexivity. Qed.

(** X19 on the page whose tiles have no name. *)
Lemma run_without_records_witness :
  let out := Reporter.run nameless_page endpoint_down nothing_parses api_key
               padded_endpoint date dumps channel true api_up true
               fresh_world in
  Reporter.summaries out.2 = Reporter.summaries fresh_world /\
  Telegram.sent (TelegramSession.client (Reporter.telegram out.2))
    = Telegram.sent (TelegramSession.client (Reporter.telegram fresh_world)) /\
  (true = true -> out.1 = Return false).
Proof.
  apply (run_without_records nameless_page endpoint_down nothing_parses
           api_key padded_endpoint date dumps channel true api_up true
           fresh_world).
  intros wd shot H. vm_compute in H. by injection H.
Defined.

(** X20 when the summary endpoint answers with an error status. *)
Lemma generation_error_stops_run_witness :
  let out := Reporter.run tokyo_page endpoint_down nothing_parses api_key
               summary_down date dumps channel true api_up true
               fresh_world in
  Telegram.sent (TelegramSession.client (Reporter.telegram out.2))
    = Telegram.sent (TelegramSession.client (Reporter.telegram fresh_world)) /\
  (true = true -> out.1 = Return false).
Proof.
  eapply (generation_error_stops_run tokyo_page endpoint_down nothing_parses
            api_key summary_down date dumps channel true api_up true
            fresh_world).
  - vm_compute. reflexivity.
  - left. vm_compute. reflexivity.
Defined.


Example refused_run :
  let out := Reporter.run tokyo_page endpoint_down nothing_parses api_key
               padded_endpoint date dumps channel true api_down true
               fresh_world in
  fst out = Return true /\
  Telegram.sent (TelegramSession.client (Reporter.telegram (snd out)))
    = [ Telegram.BotSendPhoto channel png
          (Some (py "В Токио солнечно, +32°C."));
        Telegram.BotSendPhoto channel png None;
        Telegram.BotSendMessage channel (py "В Токио солнечно, +32°C.") ].
Proof. vm_compute. split; reflexivity. Qed.

(** X22 for the token, stored in the file, and the chat id, stored
    empty. *)
Lemma credential_precedence_witness :
  Config.get_or_environ file_config environ_full (py "telegram")
    (py "bot_token") (py "TELEGRAM_BOT_TOKEN")
    = Config.Value (Ai.JStr (py "999999:XYZ")) /\
  Config.get_or_environ file_config environ_full (py "telegram")
    (py "chat_id") (py "TELEGRAM_CHAT_ID")
    = Config.Value
        (Ai.JStr (default [] (environ_full !! py "TELEGRAM_CHAT_ID"))).
Proof.
  assert (Hdict : file_config !! py "telegram" <> Some Config.NotDict).
  { intros H. vm_compute in H. discriminate H. }
  split.
  - apply (proj1 (credential_precedence file_config environ_full
                    (py "telegram") (py "bot_token") (py "TELEGRAM_BOT_TOKEN")
                    Hdict));
      vm_compute; reflexivity.
  - apply (proj2 (credential_precedence file_config environ_full
                    (py "telegram") (py "chat_id") (py "TELEGRAM_CHAT_ID")
                    Hdict)).
    intros v Hv. vm_compute in Hv. by injection Hv as <-.
Defined.

(** X23 with an empty file and both variables set. *)
Lemma telegram_client_needs_credentials_witness :
  Config.telegram_client_init ∅ environ_full =
    match environ_full !! py "TELEGRAM_BOT_TOKEN" with
    | Some (c :: tok) =>
      match environ_full !! py "TELEGRAM_CHAT_ID" with
      | Some (d :: cid) =>
          Config.Client (Ai.JStr (c :: tok)) (Ai.JStr (d :: cid))
      | _ => Config.InitValueError "Telegram chat ID is not set"
      end
    | _ => Config.InitValueError "Telegram bot token is not set"
    end.
Proof.
  apply (proj2 (telegram_client_needs_credentials ∅ environ_full)).
  vm_compute. reflexivity.
Defined.

Example client_from_environment :
  Config.telegram_client_init ∅ environ_full
    = Config.Client (Ai.JStr (py "123456:ABC"))
                    (Ai.JStr (py "@nhk_weather_ru")) /\
  Config.telegram_client_init ∅ ∅
    = Config.InitValueError "Telegram bot token is not set" /\
  Config.telegram_client_init file_config ∅
    = Config.InitValueError "Telegram chat ID is not set".
Proof. vm_compute. repeat split; reflexivity. Qed.

End MoreScenarios.
